(** * Smart-Recommendation: the recommendation engine of src/App.jsx

    A shallow embedding of [getJaccardSimilarity] and
    [getSmartRecommendations] (src/App.jsx, lines 53-97) and the
    properties the specification states about them.

    Modelling decisions.
    - A JS string is a sequence of code units; here the code units are the
      256 characters of [ascii], read as U+0000..U+00FF.
    - A JS [Set] of strings is a [gset string]; [Set.size] is [size].
    - A JS number holding the quotient of two set sizes is the exact
      rational [Q].  The two comparisons the engine makes on it ([> 0.25]
      and the sign of a difference in the sort comparator) give the same
      answer on the rationals as on doubles for every size a [Set] can
      reach, 0.25 being a power of two.
    - [new Date()] reads the host's clock and its time zone: both are an
      input, the time value in milliseconds and the zone as its two offset
      functions; [setDate(getDate() + k)] moves the local time by [k] days
      and [toISOString] prints the day in UTC. *)

From Stdlib Require Import Ascii String NArith QArith.
From stdpp Require Import gmap strings list sorting.

Local Open Scope string_scope.
Local Open Scope list_scope.

(** ** Strings as the engine uses them *)

Module JsString.

Definition code (c : ascii) : N := N_of_ascii c.

(** [String.prototype.toLowerCase] on U+0000..U+00FF: A-Z, and the
    Latin-1 capitals U+00C0..U+00DE without the sign U+00D7. *)
Definition lower_char (c : ascii) : ascii :=
  let n := code c in
  if ((65 <=? n) && (n <=? 90))%N
     || ((192 <=? n) && (n <=? 222) && negb (n =? 215))%N
  then ascii_of_N (n + 32) else c.

Fixpoint toLowerCase (s : string) : string :=
  match s with
  | EmptyString => EmptyString
  | String c s' => String (lower_char c) (toLowerCase s')
  end.

(** The regular expression [\s] on U+0000..U+00FF: tab, line feed,
    vertical tab, form feed, carriage return, space, no-break space. *)
Definition is_space (c : ascii) : bool :=
  let n := code c in
  (((9 <=? n) && (n <=? 13)) || (n =? 32) || (n =? 160))%N.

(** The class [[.,/#!$%^&*;:{}=\-_`~()]] of line 56. *)
Definition stripped_class : list ascii :=
  list_ascii_of_string ".,/#!$%^&*;:{}=-_`~()".

Definition is_stripped (c : ascii) : bool :=
  bool_decide (c ∈ stripped_class).

(** [s.replace(/[...]/g, "")] *)
Fixpoint strip (s : string) : string :=
  match s with
  | EmptyString => EmptyString
  | String c s' => if is_stripped c then strip s' else String c (strip s')
  end.

(** [s.split(/\s+/)]: the pieces between maximal runs of white space;
    a run at either end leaves an empty piece there, and the empty
    string gives one empty piece.  [in_run] says that the character
    before was white space, [cur] is the piece being read. *)
Fixpoint split_go (in_run : bool) (cur : string) (s : string) : list string :=
  match s with
  | EmptyString => [cur]
  | String c s' =>
      if is_space c
      then (if in_run then split_go true cur s'
            else cur :: split_go true EmptyString s')
      else split_go false (cur +:+ String c EmptyString) s'
  end.

Definition split_ws (s : string) : list string :=
  split_go false EmptyString s.

(** [s.includes(needle)] *)
Fixpoint includes (s needle : string) : bool :=
  String.prefix needle s
  || match s with
     | EmptyString => false
     | String _ s' => includes s' needle
     end.

End JsString.

Import JsString.

(** ** getJaccardSimilarity (lines 53-64) *)

Definition stopWords : gset string :=
  list_to_set ["a"; "the"; "is"; "of"; "and"; "to"; "in"; "for"; "with"; "on"; "my"].

(** The predicate of [filter(w => w.length > 2 && !stopWords.has(w))]. *)
Definition qualifies (w : string) : Prop :=
  2 < String.length w ∧ w ∉ stopWords.

Global Instance qualifies_dec w : Decision (qualifies w).
Proof. unfold qualifies. apply _. Defined.

Definition tokens (text : string) : list string :=
  filter qualifies (split_ws (strip (toLowerCase text))).

Definition normalize (text : string) : gset string :=
  list_to_set (tokens text).

(** [new Set([...setA].filter(x => setB.has(x)))] *)
Definition intersection_of (setA setB : gset string) : gset string :=
  list_to_set (filter (λ x, x ∈ setB) (elements setA)).

(** [new Set([...setA, ...setB])] *)
Definition union_of (setA setB : gset string) : gset string :=
  list_to_set (elements setA ++ elements setB).

(** [n / d] for two sizes.  Where the engine divides, [d] is not 0 (see
    the property on empty sets below). *)
Definition ratio (n d : nat) : Q :=
  (inject_Z (Z.of_nat n) / inject_Z (Z.of_nat d))%Q.

Definition getJaccardSimilarity (text1 text2 : string) : Q :=
  let setA := normalize text1 in
  let setB := normalize text2 in
  if decide (size setA = 0%nat ∨ size setB = 0%nat) then 0%Q
  else
    let intersection := intersection_of setA setB in
    let union := union_of setA setB in
    ratio (size intersection) (size union).

(** ** Cards and recommendations *)

Module Card.
(** A card document as the engine reads it.  [description] and
    [dueDate] may be absent; [listTitle] is the label put on the card
    by [handleCardClick]. *)
Record t := mk {
  id : string;
  title : string;
  description : option string;
  dueDate : option string;
  listTitle : string
}.
End Card.

(** [x || ''] for an optional string: an absent and an empty string both
    give the empty string. *)
Definition or_empty (x : option string) : string := default "" x.

(** JS truthiness of an optional string, as in [!card.dueDate]. *)
Definition truthy (x : option string) : bool :=
  match x with
  | None => false
  | Some s => negb (bool_decide (s = ""))
  end.

(** A calendar day, in days from the epoch: the day that
    [toISOString().split('T')[0]] prints for a [Date] object. *)
Definition Date := Z.

Definition msPerHour : Z := 3600000.
Definition msPerDay : Z := 86400000.

Module Clock.
(** What the host gives a [Date] object: the time value of [new Date()],
    in milliseconds from the epoch, and the offset of its local time from
    UTC, in milliseconds, at a time value ([LocalTZA(t, true)]) and at a
    local time ([LocalTZA(t, false)]). *)
Record t := mk { now : Z; tzaUTC : Z → Z; tzaLocal : Z → Z }.

(** The day [toISOString] prints for a time value. *)
Definition day (tv : Z) : Date := (tv / msPerDay)%Z.

(** The day printed for [new Date()]. *)
Definition today (c : t) : Date := day (now c).

(** The time value of [date] after [date = new Date();
    date.setDate(date.getDate() + k)]: the local time ([LocalTime]), with
    its day of the month moved by [k] ([MakeDay], [MakeDate]), read back
    as a time value ([UTC]). *)
Definition setDatePlus (c : t) (k : Z) : Z :=
  (let local := now c + tzaUTC c (now c) in
   let newDate := local + k * msPerDay in
   newDate - tzaLocal c newDate)%Z.

(** The day printed after it. *)
Definition dayAfter (c : t) (k : Z) : Date := day (setDatePlus c k).
End Clock.

Module Item.
(** [{ card: otherCard, similarity }] *)
Record t := mk { card : Card.t; similarity : Q }.
End Item.

(** The objects pushed on [recs].  The [text] of a date suggestion is
    ["Suggest Due Date: "] followed by its [action], the proposed day. *)
Inductive Recommendation :=
| DateRec (action : Date) (rationale : string)
| MoveRec (text action rationale : string)
| RelatedRec (text : string) (cards : list Item.t) (rationale : string).

Arguments DateRec action%_Z rationale.

(** The [type] field. *)
Definition rec_type (r : Recommendation) : string :=
  match r with
  | DateRec _ _ => "date"
  | MoveRec _ _ _ => "move"
  | RelatedRec _ _ _ => "related"
  end.

(** The ranked cards a recommendation carries. *)
Definition rec_cards (r : Recommendation) : list Item.t :=
  match r with
  | RelatedRec _ cards _ => cards
  | _ => []
  end.

(** ** Array.prototype.sort with a comparator

    The sort is stable (ECMAScript 2019): an element moves behind
    another one only when the comparator is positive on the pair.  For a
    consistent comparator every stable sort gives the same array; this is
    the insertion sort. *)

Global Instance Qlt_dec (x y : Q) : Decision (x < y)%Q.
Proof. unfold Qlt. apply _. Defined.

Global Instance Qle_dec (x y : Q) : Decision (x <= y)%Q.
Proof. unfold Qle. apply _. Defined.

Global Instance Qeq_decision (x y : Q) : Decision (x == y)%Q.
Proof. unfold Qeq. apply _. Defined.

Section Sort.
Context {A : Type} (compareFn : A → A → Q).

Fixpoint sort_insert (x : A) (l : list A) : list A :=
  match l with
  | [] => [x]
  | y :: l' =>
      if decide (0 < compareFn x y)%Q then y :: sort_insert x l'
      else x :: l
  end.

Definition sort (l : list A) : list A := foldr sort_insert [] l.
End Sort.

(** [(a, b) => b.similarity - a.similarity] *)
Definition bySimilarityDesc (a b : Item.t) : Q :=
  (Item.similarity b - Item.similarity a)%Q.

(** [arr.slice(0, n)] *)
Definition slice0 {A} (n : nat) (l : list A) : list A := take n l.

(** ** getSmartRecommendations (lines 66-97) *)

(** [arr.push(x)] as a new array. *)
Definition push {A} (recs : list A) (r : A) : list A := recs ++ [r].

(** Line 68. *)
Definition content_of (card : Card.t) : string :=
  toLowerCase (Card.title card +:+ " " +:+ or_empty (Card.description card)).

(** Lines 89-91: the siblings other than the target, each with its
    similarity to the target's content. *)
Definition scoreCard (content : string) (otherCard : Card.t) : Item.t :=
  let similarity :=
    getJaccardSimilarity content
      (Card.title otherCard +:+ " " +:+ or_empty (Card.description otherCard)) in
  Item.mk otherCard similarity.

Definition candidates (card : Card.t) (allCards : list Card.t) : list Card.t :=
  filter (λ c, Card.id c ≠ Card.id card) allCards.

(** Line 92, first call: [filter(item => item.similarity > 0.25)]. *)
Definition aboveThreshold (items : list Item.t) : list Item.t :=
  filter (λ item, (1 # 4 < Item.similarity item)%Q) items.

(** Lines 89-92. *)
Definition relatedCardsOf (content : string) (card : Card.t)
    (allCards : list Card.t) : list Item.t :=
  slice0 3
    (sort bySimilarityDesc
       (aboveThreshold (scoreCard content <$> candidates card allCards))).

Definition getSmartRecommendations (clock : Clock.t) (card : Card.t)
    (allCards : list Card.t) : list Recommendation :=
  let recs : list Recommendation := [] in
  let content := content_of card in
  let currentList := Card.listTitle card in
  let recs :=
    if negb (truthy (Card.dueDate card)) then
      let '(date, rationale) :=
        if includes content "today" || includes content "urgent"
           || includes content "asap"
        then (Some (Clock.now clock), "Based on urgent keywords.")
        else if includes content "tomorrow" || includes content "next day"
        then (Some (Clock.setDatePlus clock 1), "Based on short-term keywords.")
        else if includes content "next week" || includes content "7 days"
        then (Some (Clock.setDatePlus clock 7), "Based on medium-term keywords.")
        else (None, "") in
      match date with
      | Some date =>
          let action := Clock.day date in
          push recs (DateRec action rationale)
      | None => recs
      end
    else recs in
  let recs :=
    if includes currentList "To Do"
       && (includes content "started" || includes content "working on")
    then push recs (MoveRec "Suggest Move: In Progress" "In Progress"
                      "Keywords suggest work has begun.")
    else if includes currentList "In Progress"
            && (includes content "done" || includes content "complete")
    then push recs (MoveRec "Suggest Move: Done" "Done"
                      "Keywords suggest task is complete.")
    else recs in
  let relatedCards := relatedCardsOf content card allCards in
  let recs :=
    if bool_decide (0 < length relatedCards)%nat
    then push recs (RelatedRec "Suggested Related Cards:" relatedCards
                      "Content similarity analysis.")
    else recs in
  recs.


(** ** Vocabulary of the statements *)




(** The recommendations of one type. *)
Definition of_type (ty : string) (recs : list Recommendation) : list Recommendation :=
  filter (λ r, rec_type r = ty) recs.

(** The three keyword groups of the date rule. *)
Definition urgent (content : string) : bool :=
  includes content "today" || includes content "urgent" || includes content "asap".
Definition shortTerm (content : string) : bool :=
  includes content "tomorrow" || includes content "next day".
Definition mediumTerm (content : string) : bool :=
  includes content "next week" || includes content "7 days".

(** The two rows of the move rule. *)
Definition begun (currentList content : string) : bool :=
  includes currentList "To Do"
  && (includes content "started" || includes content "working on").
Definition finished (currentList content : string) : bool :=
  includes currentList "In Progress"
  && (includes content "done" || includes content "complete").

(** Descending order of similarity. *)
Definition desc (a b : Item.t) : Prop :=
  (Item.similarity b <= Item.similarity a)%Q.

(** The items of a list that have a given score, in the list's order. *)
Definition scoring (q : Q) (items : list Item.t) : list Item.t :=
  filter (λ item, (Item.similarity item == q)%Q) items.

(** The three parts of the result, in the order they are pushed. *)
Definition datePart (clock : Clock.t) (card : Card.t) : list Recommendation :=
  let content := content_of card in
  if truthy (Card.dueDate card) then []
  else if urgent content
  then [DateRec (Clock.today clock) "Based on urgent keywords."]
  else if shortTerm content
  then [DateRec (Clock.dayAfter clock 1) "Based on short-term keywords."]
  else if mediumTerm content
  then [DateRec (Clock.dayAfter clock 7) "Based on medium-term keywords."]
  else [].

Definition movePart (card : Card.t) : list Recommendation :=
  let content := content_of card in
  let currentList := Card.listTitle card in
  if begun currentList content
  then [MoveRec "Suggest Move: In Progress" "In Progress"
          "Keywords suggest work has begun."]
  else if finished currentList content
  then [MoveRec "Suggest Move: Done" "Done" "Keywords suggest task is complete."]
  else [].

Definition relatedPart (card : Card.t) (allCards : list Card.t) : list Recommendation :=
  match relatedCardsOf (content_of card) card allCards with
  | [] => []
  | cards => [RelatedRec "Suggested Related Cards:" cards
                "Content similarity analysis."]
  end.

(** ** Sample boards *)

Definition loginCard : Card.t :=
  Card.mk "c1" "Fix login bug" (Some "urgent, users cannot sign in today")
    None "To Do".
Definition signupCard : Card.t :=
  Card.mk "c2" "Fix signup bug" (Some "users cannot create accounts") None "To Do".
Definition readmeCard : Card.t :=
  Card.mk "c3" "Update README" None (Some "") "Done".
Definition callCard : Card.t :=
  Card.mk "c4" "Call the client" (Some "Tomorrow morning; started dialing")
    None "To Do".
Definition sprintCard : Card.t :=
  Card.mk "c5" "Plan sprint" (Some "let's do this next week, all done")
    None "In Progress".
Definition datedCard : Card.t :=
  Card.mk "c6" "This is urgent, ASAP" None (Some "2025-01-31") "Done".
Definition board : list Card.t :=
  [loginCard; signupCard; readmeCard; callCard; sprintCard; datedCard].

Definition busyCard : Card.t :=
  Card.mk "c7" "Fix login bug today" (Some "started: users cannot sign in")
    None "To Do".
Definition tomorrowCard : Card.t :=
  Card.mk "d1" "Call the supplier back tomorrow" None None "To Do".
Definition nextWeekCard : Card.t :=
  Card.mk "d2" "Review the budget" (Some "Due next week.") None "To Do".

(** Noon of 2026-11-03 (day 20760) on a host in the UTC zone. *)
Definition utcNoon : Clock.t :=
  Clock.mk (20760 * msPerDay + 12 * msPerHour) (λ _, 0%Z) (λ _, 0%Z).

(** America/New_York around the end of daylight saving time, 2026-11-01 at
    06:00 UTC, 02:00 local: four hours behind UTC before it, five after;
    a local time that occurs twice is read with the offset before the
    change. *)
Definition newYorkOffset (change : Z) (t : Z) : Z :=
  (if t <? change then -4 * msPerHour else -5 * msPerHour)%Z.

Definition newYork (now : Z) : Clock.t :=
  Clock.mk now (newYorkOffset (20758 * msPerDay + 6 * msPerHour))
    (newYorkOffset (20758 * msPerDay + 2 * msPerHour)).

(** 2026-10-31T23:30:00Z (day 20757) on a host in New York: 19:30 local
    time, on the eve of the change. *)
Definition newYorkEve : Clock.t :=
  newYork (20757 * msPerDay + 23 * msPerHour + 1800000).

(** A board with ties, a score of exactly 0.25 and more than three
    candidates above the threshold. *)
Definition tieTarget : Card.t :=
  Card.mk "t0" "alpha beta" (Some "gamma delta") None "To Do".
Definition tieBoard : list Card.t :=
  [ Card.mk "t1" "Alpha, beta!" None None "To Do";
    tieTarget;
    Card.mk "t2" "alpha" (Some "the alpha of my alpha") None "To Do";
    Card.mk "t3" "gamma" (Some "delta") None "Done";
    Card.mk "t4" "Delta (gamma)" (Some "beta alpha") None "Done";
    Card.mk "t5" "alpha epsilon" None None "Done";
    Card.mk "t6" "beta" (Some "GAMMA") None "Done" ].

(** ** The callers: lists, card documents, the modal and the boards

    [CardModal] (lines 99-159), [BoardView] (lines 161-216) and [App]
    (lines 218-254) around the engine.  A handler is modelled by the
    state it leaves and the calls it makes, in order; what the document
    store does with a call is [CardDoc.update]: [updateDoc] replaces the
    fields named in the update and keeps the others. *)

Module BoardList.
(** [{ id, title, order }] *)
Record t := mk { id : string; title : string; order : nat }.
End BoardList.

(** Lines 225-229. *)
Definition defaultLists : list BoardList.t :=
  [ BoardList.mk "todo" "To Do" 1;
    BoardList.mk "in_progress" "In Progress" 2;
    BoardList.mk "done" "Done" 3 ].

Module Updates.
(** The object passed to [updateCard]: the fields to replace. *)
Record t := mk {
  title : option string;
  description : option string;
  dueDate : option string;
  listId : option string
}.
End Updates.

Module CardDoc.
(** A card of the [cards] state: [{ id: doc.id, ...doc.data() }]. *)
Record t := mk {
  id : string;
  title : string;
  description : option string;
  dueDate : option string;
  listId : string;
  boardId : string
}.

(** The document after [updateDoc(ref, updates)]. *)
Definition update (u : Updates.t) (doc : t) : t :=
  {| id := id doc;
     title := default (title doc) (Updates.title u);
     description := from_option Some (description doc) (Updates.description u);
     dueDate := from_option Some (dueDate doc) (Updates.dueDate u);
     listId := default (listId doc) (Updates.listId u);
     boardId := boardId doc |}.
End CardDoc.

(** A card of [allCards] as the engine reads it: a sibling carries no
    [listTitle], and the engine reads none; the field is left empty. *)
Definition asCard (doc : CardDoc.t) : Card.t :=
  Card.mk (CardDoc.id doc) (CardDoc.title doc) (CardDoc.description doc)
    (CardDoc.dueDate doc) "".

(** Line 200: the cards drawn in the column of the list [l]. *)
Definition column (l : BoardList.t) (cards : list CardDoc.t) : list CardDoc.t :=
  filter (λ c, CardDoc.listId c = BoardList.id l) cards.

(** Lines 196-201: the columns, in the order of [lists]. *)
Definition columns (lists : list BoardList.t) (cards : list CardDoc.t) :
    list (BoardList.t * list CardDoc.t) :=
  (λ l, (l, column l cards)) <$> lists.

(** Line 201 and [handleCardClick]: the card handed to the modal when a
    card of the column of the list [l] is clicked, [{ ...card, listTitle:
    list.title }] (and the [board] field, which only [handleInvite]
    reads). *)
Definition handleCardClick (l : BoardList.t) (doc : CardDoc.t) : Card.t :=
  Card.mk (CardDoc.id doc) (CardDoc.title doc) (CardDoc.description doc)
    (CardDoc.dueDate doc) (BoardList.title l).

(** *** The calendar day as text

    [date.toISOString().split('T')[0]]: year, month and day of the day
    count, the year on four digits from 0 to 9999 and on six digits with
    a sign outside. *)

Definition digit (n : Z) : string :=
  String (ascii_of_N (48 + Z.to_N (n mod 10))) EmptyString.
Definition pad2 (n : Z) : string := digit (n / 10) +:+ digit n.
Definition pad4 (n : Z) : string := pad2 (n / 100) +:+ pad2 n.
Definition pad6 (n : Z) : string := pad2 (n / 10000) +:+ pad4 n.

(** Year, month and day of the month of a day count (days from
    1970-01-01, proleptic Gregorian calendar). *)
Definition civil (d : Date) : Z * Z * Z :=
  (let z := d + 719468 in
   let era := z / 146097 in
   let doe := z - era * 146097 in
   let yoe := (doe - doe / 1460 + doe / 36524 - doe / 146096) / 365 in
   let doy := doe - (365 * yoe + yoe / 4 - yoe / 100) in
   let mp := (5 * doy + 2) / 153 in
   let day := doy - (153 * mp + 2) / 5 + 1 in
   let m := if mp <? 10 then mp + 3 else mp - 9 in
   let y := yoe + era * 400 + (if m <=? 2 then 1 else 0) in
   (y, m, day))%Z.

Definition isoDate (d : Date) : string :=
  let '(y, m, day) := civil d in
  (if ((0 <=? y) && (y <=? 9999))%Z then pad4 y
   else if (y <? 0)%Z then "-" +:+ pad6 (- y)
   else "+" +:+ pad6 y)
  +:+ "-" +:+ pad2 m +:+ "-" +:+ pad2 day.

(** *** CardModal *)

Module Modal.
(** The four [useState] cells of lines 100-103. *)
Record state := mk {
  title : string;
  description : string;
  dueDate : string;
  newMemberEmail : string
}.

(** Their initial values for the card that was opened. *)
Definition init (card : Card.t) : state :=
  {| title := Card.title card;
     description := or_empty (Card.description card);
     dueDate := or_empty (Card.dueDate card);
     newMemberEmail := "" |}.
End Modal.

(** The calls a handler of the modal makes on its props. *)
Inductive Call :=
| UpdateCard (cardId : string) (updates : Updates.t)
| UpdateBoardMembers (email : string)
| OnClose.

(** Line 105. *)
Definition handleSave (st : Modal.state) (card : Card.t) : Modal.state * list Call :=
  (st, [ UpdateCard (Card.id card)
           (Updates.mk (Some (Modal.title st)) (Some (Modal.description st))
              (Some (Modal.dueDate st)) None);
         OnClose ]).

(** Lines 106-114; the [action] of a date suggestion is the text of its
    day. *)
Definition handleApplyRec (lists : list BoardList.t) (st : Modal.state)
    (card : Card.t) (rec : Recommendation) : Modal.state * list Call :=
  match rec with
  | DateRec action _ =>
      (Modal.mk (Modal.title st) (Modal.description st) (isoDate action)
         (Modal.newMemberEmail st),
       [UpdateCard (Card.id card)
          (Updates.mk None None (Some (isoDate action)) None)])
  | MoveRec _ action _ =>
      let newList :=
        List.find (λ l, bool_decide (BoardList.title l = action)) lists in
      match newList with
      | Some l =>
          (st, [UpdateCard (Card.id card)
                  (Updates.mk None None None (Some (BoardList.id l)))])
      | None => (st, [])
      end
  | RelatedRec _ _ _ => (st, [])
  end.

(** Lines 115-120; [ownerEmail] is [card.board.ownerEmail]. *)
Definition handleInvite (st : Modal.state) (ownerEmail : string) :
    Modal.state * list Call :=
  if negb (bool_decide (Modal.newMemberEmail st = ""))
     && negb (bool_decide (Modal.newMemberEmail st = ownerEmail))
  then (Modal.mk (Modal.title st) (Modal.description st) (Modal.dueDate st) "",
        [UpdateBoardMembers (Modal.newMemberEmail st)])
  else (st, []).

(** *** Boards *)

Module Board.
(** A board document; [members] may be absent. *)
Record t := mk {
  id : string;
  name : string;
  ownerId : string;
  ownerEmail : string;
  members : option (list string)
}.
End Board.

(** Line 173: the array [[...(board.members || []), email]] and the
    board document once it holds it. *)
Definition invitedMembers (board : Board.t) (email : string) : list string :=
  default [] (Board.members board) ++ [email].

Definition invitedBoard (board : Board.t) (email : string) : Board.t :=
  Board.mk (Board.id board) (Board.name board) (Board.ownerId board)
    (Board.ownerEmail board) (Some (invitedMembers board email)).

(** Lines 169-175: the board document after [updateBoardMembers(email)];
    nothing is written without a store. *)
Definition updateBoardMembers (db : bool) (board : Board.t) (email : string) :
    option Board.t :=
  if negb db then None else Some (invitedBoard board email).

(** Line 235: [b.ownerId === userId || b.members?.includes(userId)];
    [userId] is [null] while nobody is signed in. *)
Definition visibleTo (userId : option string) (b : Board.t) : Prop :=
  match userId with
  | Some u => Board.ownerId b = u ∨ u ∈ default [] (Board.members b)
  | None => False
  end.

Global Instance visibleTo_dec userId b : Decision (visibleTo userId b).
Proof. destruct userId; simpl; apply _. Defined.

Definition userBoards (userId : option string) (fetchedBoards : list Board.t) :
    list Board.t :=
  filter (visibleTo userId) fetchedBoards.

(** Lines 245-253: the document [createNewBoard] adds, under the
    identifier the store gives it; nothing is added without a store
    ([db] is [null]), without a user or without a name. *)
Definition createNewBoard (db : bool) (userId : option string)
    (newBoardName : string) (docId : string) : option Board.t :=
  if negb db || negb (truthy userId) || bool_decide (newBoardName = "") then None
  else Some (Board.mk docId newBoardName (or_empty userId) (or_empty userId)
               (Some [])).

(** Lines 180-187: the document [addCard(listId)] adds, under the
    identifier the store gives it (of its fields, the ones the board and
    the engine read); nothing is added without a store or a user. *)
Definition addCard (db : bool) (userId : option string)
    (boardId listId docId : string) : option CardDoc.t :=
  if negb db || negb (truthy userId) then None
  else Some (CardDoc.mk docId "New Task" (Some "Add details here...") None
               listId boardId).

(** * Properties *)

(** A decidable closed statement, settled by evaluation. *)
Ltac by_eval := apply (bool_decide_unpack _); by vm_compute.

(** ** The two set operations are intersection and union *)

Lemma intersection_of_spec (setA setB : gset string) :
  intersection_of setA setB = setA ∩ setB.
Proof.
  apply set_eq. intros x. unfold intersection_of.
  rewrite elem_of_list_to_set, list_elem_of_filter, elem_of_elements.
  set_solver.
Qed.

Lemma union_of_spec (setA setB : gset string) :
  union_of setA setB = setA ∪ setB.
Proof.
  apply set_eq. intros x. unfold union_of.
  rewrite elem_of_list_to_set, elem_of_app, !elem_of_elements.
  set_solver.
Qed.

Lemma size_zero_iff (X : gset string) : size X = 0%nat ↔ X = ∅.
Proof.
  split.
  - intros H. apply leibniz_equiv. by apply size_empty_inv.
  - intros ->. apply size_empty.
Qed.

Lemma getJaccardSimilarity_unfold text1 text2 :
  getJaccardSimilarity text1 text2 =
    if decide (normalize text1 = ∅ ∨ normalize text2 = ∅) then 0%Q
    else ratio (size (normalize text1 ∩ normalize text2))
               (size (normalize text1 ∪ normalize text2)).
Proof.
  unfold getJaccardSimilarity. cbv zeta.
  rewrite intersection_of_spec, union_of_spec.
  destruct (decide (size _ = 0%nat ∨ size _ = 0%nat)) as [H|H];
    destruct (decide (normalize text1 = ∅ ∨ _)) as [H'|H']; try done;
    rewrite !size_zero_iff in H; tauto.
Qed.

Lemma ratio_range (n d : nat) :
  (n ≤ d)%nat → (0 < d)%nat → (0 <= ratio n d <= 1)%Q.
Proof.
  intros Hnd Hd. unfold ratio.
  assert (Hpos : (0 < inject_Z (Z.of_nat d))%Q).
  { change 0%Q with (inject_Z 0). rewrite <- Zlt_Qlt. lia. }
  split.
  - apply Qle_shift_div_l; [done|]. rewrite Qmult_0_l.
    change 0%Q with (inject_Z 0). rewrite <- Zle_Qle. lia.
  - apply Qle_shift_div_r; [done|]. rewrite Qmult_1_l.
    rewrite <- Zle_Qle. lia.
Qed.

Lemma ratio_self (n : nat) : (0 < n)%nat → (ratio n n == 1)%Q.
Proof.
  intros Hn. unfold ratio, Qdiv. apply Qmult_inv_r.
  change 0%Q with (inject_Z 0). rewrite inject_Z_injective. lia.
Qed.

(** ** Symmetry, range and empty sets *)

(** C5. The similarity of two texts does not depend on their order:
    [getJaccardSimilarity A B] and [getJaccardSimilarity B A] are the same
    number. *)
Theorem getJaccardSimilarity_sym (A B : string) :
  getJaccardSimilarity A B = getJaccardSimilarity B A.
Proof.
  rewrite !getJaccardSimilarity_unfold.
  rewrite (comm_L (∩) (normalize A)), (comm_L (∪) (normalize A)).
  destruct (decide (normalize A = ∅ ∨ normalize B = ∅)) as [H|H];
    destruct (decide (normalize B = ∅ ∨ normalize A = ∅)) as [H'|H'];
    try done; tauto.
Qed.

(** C6. The similarity of two texts lies between 0 and 1, both included,
    and a text that normalizes to at least one token has similarity 1
    with itself. *)
Theorem getJaccardSimilarity_range (A B : string) :
  (0 <= getJaccardSimilarity A B <= 1)%Q
  ∧ (normalize A ≠ ∅ → (getJaccardSimilarity A A == 1)%Q).
Proof.
  split.
  - rewrite getJaccardSimilarity_unfold.
    destruct (decide _) as [H|H]; [done|].
    apply ratio_range.
    + apply subseteq_size. set_solver.
    + assert (size (normalize A) ≠ 0%nat) by (rewrite size_zero_iff; tauto).
      assert (size (normalize A) ≤ size (normalize A ∪ normalize B))%nat
        by (apply subseteq_size; set_solver).
      lia.
  - intros HA. rewrite getJaccardSimilarity_unfold.
    destruct (decide _) as [H|H]; [tauto|].
    replace (normalize A ∩ normalize A) with (normalize A) by set_solver.
    replace (normalize A ∪ normalize A) with (normalize A) by set_solver.
    apply ratio_self.
    assert (size (normalize A) ≠ 0%nat) by (rewrite size_zero_iff; tauto).
    lia.
Qed.

Lemma getJaccardSimilarity_range_witness :
  normalize "Fix login bug" ≠ ∅
  ∧ (getJaccardSimilarity "Fix login bug" "Fix login bug" == 1)%Q.
Proof.
  assert (H : normalize "Fix login bug" ≠ ∅).
  { intros H. apply (f_equal size) in H. vm_compute in H. discriminate. }
  split; [exact H|].
  exact (proj2 (getJaccardSimilarity_range "Fix login bug" "") H).
Defined.

Lemma tokens_nil_normalize text : tokens text = [] → normalize text = ∅.
Proof. unfold normalize. by intros ->. Qed.

Lemma only_short_or_stop text :
  Forall (λ w, (String.length w < 3)%nat ∨ w ∈ stopWords)
         (split_ws (strip (toLowerCase text))) →
  normalize text = ∅.
Proof.
  intros H. apply tokens_nil_normalize. unfold tokens.
  induction H as [|w l Hw _ IH]; [done|].
  rewrite filter_cons_False; [done|].
  unfold qualifies. intros [? ?]. destruct Hw; [lia|done].
Qed.

(** C7. When one of the two token sets is empty the similarity is 0, and
    when neither is, the quotient taken is one by a union that is not
    empty.  The empty string and the text "the a of", and every text made
    only of stop words and of words shorter than 3 characters, have
    similarity 0 with any text. *)
Theorem getJaccardSimilarity_empty (A B : string) :
  (normalize A = ∅ ∨ normalize B = ∅ → getJaccardSimilarity A B = 0%Q)
  ∧ (normalize A ≠ ∅ → normalize B ≠ ∅ →
       size (union_of (normalize A) (normalize B)) ≠ 0%nat
       ∧ getJaccardSimilarity A B =
           ratio (size (intersection_of (normalize A) (normalize B)))
                 (size (union_of (normalize A) (normalize B))))
  ∧ getJaccardSimilarity "" B = 0%Q
  ∧ getJaccardSimilarity A "" = 0%Q
  ∧ getJaccardSimilarity "the a of" B = 0%Q
  ∧ getJaccardSimilarity A "the a of" = 0%Q
  ∧ (Forall (λ w, (String.length w < 3)%nat ∨ w ∈ stopWords)
            (split_ws (strip (toLowerCase A))) →
     getJaccardSimilarity A B = 0%Q ∧ getJaccardSimilarity B A = 0%Q).
Proof.
  assert (Hz : ∀ X Y, normalize X = ∅ ∨ normalize Y = ∅ →
                      getJaccardSimilarity X Y = 0%Q).
  { intros X Y H. rewrite getJaccardSimilarity_unfold.
    by destruct (decide _). }
  assert (He : normalize "" = ∅) by (by apply tokens_nil_normalize).
  assert (Hs : normalize "the a of" = ∅)
    by (apply tokens_nil_normalize; by vm_compute).
  split; [apply Hz|]. split.
  - intros HA HB. rewrite !intersection_of_spec, !union_of_spec. split.
    + rewrite size_zero_iff. intros H. apply HA. set_solver.
    + rewrite getJaccardSimilarity_unfold. destruct (decide _); [tauto|done].
  - repeat split; try (apply Hz; tauto).
    all: apply Hz; apply only_short_or_stop in H; tauto.
Qed.

Lemma getJaccardSimilarity_empty_witness :
  getJaccardSimilarity "Is it on my to do" "Fix login bug" = 0%Q
  ∧ getJaccardSimilarity "Fix login bug" "The A of, and with: for" = 0%Q
  ∧ size (union_of (normalize "Fix bug") (normalize "login bug")) ≠ 0%nat.
Proof.
  destruct (getJaccardSimilarity_empty "Is it on my to do" "Fix login bug")
    as (H1 & _).
  destruct (getJaccardSimilarity_empty "The A of, and with: for" "Fix login bug")
    as (_ & _ & _ & _ & _ & _ & H2).
  destruct (getJaccardSimilarity_empty "Fix bug" "login bug") as (_ & H3 & _).
  split; [|split].
  - apply H1. left. apply tokens_nil_normalize. by vm_compute.
  - apply H2. by_eval.
  - apply H3; intros H; apply (f_equal size) in H; vm_compute in H;
      discriminate.
Defined.

(** ** The normalizer *)


Lemma lower_char_idemp (c : ascii) : lower_char (lower_char c) = lower_char c.
Proof. by destruct c as [[] [] [] [] [] [] [] []]. Qed.











(** ** The sort *)

Lemma bySimilarityDesc_pos (a b : Item.t) :
  (0 < bySimilarityDesc a b)%Q ↔ (Item.similarity a < Item.similarity b)%Q.
Proof. unfold bySimilarityDesc, Qminus. symmetry. apply Qlt_minus_iff. Qed.

Section SortFacts.
Context {A : Type} (compareFn : A → A → Q).

Lemma sort_insert_perm (x : A) (l : list A) :
  sort_insert compareFn x l ≡ₚ x :: l.
Proof.
  induction l as [|y l IH]; simpl; [done|].
  destruct (decide _); [|done]. rewrite IH. apply Permutation_swap.
Qed.

Lemma sort_perm (l : list A) : sort compareFn l ≡ₚ l.
Proof.
  induction l as [|x l IH]; simpl; [done|].
  by rewrite sort_insert_perm, IH.
Qed.
End SortFacts.

Lemma sort_insert_sorted (x : Item.t) (l : list Item.t) :
  StronglySorted desc l → StronglySorted desc (sort_insert bySimilarityDesc x l).
Proof.
  induction l as [|y l IH]; simpl; intros Hl.
  - repeat constructor.
  - apply StronglySorted_cons in Hl as [Hy Hl].
    destruct (decide _) as [Hlt|Hge].
    + apply StronglySorted_cons. split; [|by apply IH].
      rewrite sort_insert_perm. constructor; [|done].
      apply bySimilarityDesc_pos in Hlt. by apply Qlt_le_weak.
    + assert (Hxy : desc x y).
      { unfold desc. apply Qnot_lt_le. by rewrite <- bySimilarityDesc_pos. }
      apply StronglySorted_cons. split.
      * constructor; [done|]. eapply Forall_impl; [exact Hy|].
        intros z Hz. unfold desc in *. by eapply Qle_trans.
      * by apply StronglySorted_cons.
Qed.

Lemma sort_sorted (l : list Item.t) : StronglySorted desc (sort bySimilarityDesc l).
Proof.
  induction l as [|x l IH]; simpl; [constructor|]. by apply sort_insert_sorted.
Qed.

Lemma sort_insert_scoring (q : Q) (x : Item.t) (l : list Item.t) :
  scoring q (sort_insert bySimilarityDesc x l) = scoring q (x :: l).
Proof.
  unfold scoring. induction l as [|y l IH]; simpl; [done|].
  destruct (decide _) as [Hlt|_]; [|done].
  apply bySimilarityDesc_pos in Hlt.
  rewrite (filter_cons _ y), IH, !(filter_cons _ x), (filter_cons _ y).
  destruct (decide (Item.similarity y == q)%Q) as [Hy|Hy];
    destruct (decide (Item.similarity x == q)%Q) as [Hx|Hx]; try done.
  rewrite Hx, Hy in Hlt. by apply Qlt_irrefl in Hlt.
Qed.

Lemma sort_scoring (q : Q) (l : list Item.t) :
  scoring q (sort bySimilarityDesc l) = scoring q l.
Proof.
  induction l as [|x l IH]; simpl; [done|].
  rewrite sort_insert_scoring. unfold scoring in *.
  by rewrite !(filter_cons _ x), IH.
Qed.

(** ** The result, part by part *)

Lemma getSmartRecommendations_parts clock card allCards :
  getSmartRecommendations clock card allCards =
    datePart clock card ++ movePart card ++ relatedPart card allCards.
Proof.
  unfold getSmartRecommendations, datePart, movePart, relatedPart, push,
    urgent, shortTerm, mediumTerm, begun, finished. cbv zeta.
  set (content := content_of card).
  assert (Hrel : ∀ recs : list Recommendation,
    (if bool_decide (0 < length (relatedCardsOf content card allCards))%nat
     then recs ++ [RelatedRec "Suggested Related Cards:"
                     (relatedCardsOf content card allCards)
                     "Content similarity analysis."]
     else recs) =
    recs ++ match relatedCardsOf content card allCards with
            | [] => []
            | cards => [RelatedRec "Suggested Related Cards:" cards
                          "Content similarity analysis."]
            end).
  { intros recs. destruct (relatedCardsOf content card allCards); simpl.
    - by rewrite app_nil_r.
    - done. }
  rewrite Hrel. clear Hrel.
  destruct (truthy (Card.dueDate card)); simpl;
    repeat match goal with
    | |- context [includes ?a ?b] => destruct (includes a b); simpl
    end; by rewrite <- ?app_assoc.
Qed.

Lemma of_type_all (ty : string) (l : list Recommendation) :
  Forall (λ r, rec_type r = ty) l → of_type ty l = l.
Proof.
  unfold of_type. induction 1 as [|r l Hr _ IH]; [done|].
  by rewrite filter_cons_True, IH.
Qed.

Lemma of_type_none (ty : string) (l : list Recommendation) :
  Forall (λ r, rec_type r ≠ ty) l → of_type ty l = [].
Proof.
  unfold of_type. induction 1 as [|r l Hr _ IH]; [done|].
  by rewrite filter_cons_False, IH.
Qed.

Lemma of_type_app (ty : string) (l1 l2 : list Recommendation) :
  of_type ty (l1 ++ l2) = of_type ty l1 ++ of_type ty l2.
Proof. apply filter_app. Qed.

Lemma datePart_type clock card :
  Forall (λ r, rec_type r = "date") (datePart clock card).
Proof.
  unfold datePart. cbv zeta.
  repeat (case_match; try by repeat constructor).
Qed.

Lemma movePart_type card : Forall (λ r, rec_type r = "move") (movePart card).
Proof.
  unfold movePart. cbv zeta.
  repeat (case_match; try by repeat constructor).
Qed.

Lemma relatedPart_type card allCards :
  Forall (λ r, rec_type r = "related") (relatedPart card allCards).
Proof. unfold relatedPart. case_match; by repeat constructor. Qed.

Lemma Forall_type_ne (ty ty' : string) (l : list Recommendation) :
  ty ≠ ty' → Forall (λ r, rec_type r = ty) l → Forall (λ r, rec_type r ≠ ty') l.
Proof. intros Hne H. eapply Forall_impl; [exact H|]. by intros r ->. Qed.

Lemma of_type_date clock card allCards :
  of_type "date" (getSmartRecommendations clock card allCards) = datePart clock card.
Proof.
  rewrite getSmartRecommendations_parts, !of_type_app.
  rewrite (of_type_all _ _ (datePart_type clock card)).
  rewrite (of_type_none "date" (movePart card)),
    (of_type_none "date" (relatedPart card allCards)).
  - by rewrite !app_nil_r.
  - eapply Forall_type_ne; [|apply relatedPart_type]. done.
  - eapply Forall_type_ne; [|apply movePart_type]. done.
Qed.

Lemma of_type_move clock card allCards :
  of_type "move" (getSmartRecommendations clock card allCards) = movePart card.
Proof.
  rewrite getSmartRecommendations_parts, !of_type_app.
  rewrite (of_type_all _ _ (movePart_type card)).
  rewrite (of_type_none "move" (datePart clock card)),
    (of_type_none "move" (relatedPart card allCards)).
  - by rewrite app_nil_r.
  - eapply Forall_type_ne; [|apply relatedPart_type]. done.
  - eapply Forall_type_ne; [|apply datePart_type]. done.
Qed.

Lemma of_type_related clock card allCards :
  of_type "related" (getSmartRecommendations clock card allCards) =
    relatedPart card allCards.
Proof.
  rewrite getSmartRecommendations_parts, !of_type_app.
  rewrite (of_type_all _ _ (relatedPart_type card allCards)).
  rewrite (of_type_none "related" (datePart clock card)),
    (of_type_none "related" (movePart card)).
  - done.
  - eapply Forall_type_ne; [|apply movePart_type]. done.
  - eapply Forall_type_ne; [|apply datePart_type]. done.
Qed.

Lemma datePart_length clock card : (length (datePart clock card) ≤ 1)%nat.
Proof. unfold datePart. cbv zeta. repeat case_match; simpl; lia. Qed.

Lemma movePart_length card : (length (movePart card) ≤ 1)%nat.
Proof. unfold movePart. cbv zeta. repeat case_match; simpl; lia. Qed.

Lemma relatedPart_length card allCards : (length (relatedPart card allCards) ≤ 1)%nat.
Proof. unfold relatedPart. case_match; simpl; lia. Qed.

(** ** Substrings *)

Lemma prefix_spec (p s : string) :
  String.prefix p s = true ↔ ∃ rest, s = p +:+ rest.
Proof.
  revert s. induction p as [|a p IH]; intros [|b s]; simpl.
  - split; eauto.
  - split; eauto.
  - split; [done|by intros [? ?]].
  - destruct (ascii_dec a b) as [->|Hne].
    + rewrite IH. split; intros [rest Hr]; exists rest; [by rewrite Hr|].
      by injection Hr.
    + split; [done|]. intros [rest [= ? _]]. done.
Qed.

(** [includes s needle] says that [needle] occurs in [s]. *)
Lemma includes_spec (s needle : string) :
  includes s needle = true ↔ ∃ before after, s = before +:+ needle +:+ after.
Proof.
  induction s as [|a s IH]; cbn [includes].
  - rewrite orb_false_r, prefix_spec. split.
    + intros [rest Hr]. by exists "", rest.
    + intros (before & after & H). destruct before; [by exists after|done].
  - rewrite orb_true_iff, prefix_spec, IH. split.
    + intros [[rest Hr]|(before & after & Hr)].
      * by exists "", rest.
      * exists (String a before), after. simpl. by rewrite Hr.
    + intros (before & after & Hr). destruct before as [|b before].
      * left. by exists after.
      * right. injection Hr as -> Hr. by exists before, after.
Qed.

(** ** A stable descending sort is determined by its input *)

Lemma scoring_cons (q : Q) (x : Item.t) (l : list Item.t) :
  scoring q (x :: l) =
    if decide (Item.similarity x == q)%Q then x :: scoring q l else scoring q l.
Proof. unfold scoring. by rewrite filter_cons. Qed.

Lemma scoring_above (q : Q) (l : list Item.t) :
  Forall (λ z, (Item.similarity z < q)%Q) l → scoring q l = [].
Proof.
  induction 1 as [|z l Hz _ IH]; [done|].
  rewrite scoring_cons, IH. destruct (decide _) as [He|_]; [|done].
  rewrite He in Hz. by apply Qlt_irrefl in Hz.
Qed.

Lemma scoring_head_above (x y : Item.t) (l : list Item.t) :
  Forall (desc x) l → (Item.similarity x < Item.similarity y)%Q →
  scoring (Item.similarity y) (x :: l) = [].
Proof.
  intros Hx Hlt. apply scoring_above. constructor; [done|].
  eapply Forall_impl; [exact Hx|]. intros z Hz. unfold desc in Hz.
  by eapply Qle_lt_trans.
Qed.

Lemma scoring_head (x : Item.t) (l : list Item.t) :
  scoring (Item.similarity x) (x :: l) = x :: scoring (Item.similarity x) l.
Proof. rewrite scoring_cons. destruct (decide _) as [_|H]; [done|]. by destruct H. Qed.

Lemma ranked_unique (l1 l2 : list Item.t) :
  StronglySorted desc l1 → StronglySorted desc l2 →
  (∀ q, scoring q l1 = scoring q l2) → l1 = l2.
Proof.
  revert l2. induction l1 as [|x l1 IH]; intros [|y l2] H1 H2 H; [done| | |].
  - specialize (H (Item.similarity y)). by rewrite scoring_head in H.
  - specialize (H (Item.similarity x)). by rewrite scoring_head in H.
  - apply StronglySorted_cons in H1 as [Hx H1].
    apply StronglySorted_cons in H2 as [Hy H2].
    assert (Hxy : (Item.similarity x == Item.similarity y)%Q).
    { apply Qle_antisym; apply Qnot_lt_le; intros Hlt.
      - pose proof (H (Item.similarity x)) as Hq.
        rewrite scoring_head, (scoring_head_above y x l2 Hy Hlt) in Hq. done.
      - pose proof (H (Item.similarity y)) as Hq.
        rewrite (scoring_head_above x y l1 Hx Hlt), scoring_head in Hq. done. }
    assert (x = y) as <-.
    { pose proof (H (Item.similarity x)) as Hq.
      rewrite scoring_head, scoring_cons in Hq.
      destruct (decide _) as [_|Hn]; [by injection Hq|]. by destruct Hn. }
    f_equal. apply IH; [done..|]. intros q. specialize (H q).
    rewrite !scoring_cons in H. destruct (decide _); [by injection H|done].
Qed.

(** ** The related-card step *)

Lemma elem_of_take_elem_of {A} (n : nat) (l : list A) (x : A) :
  x ∈ take n l → x ∈ l.
Proof. intros H. rewrite <- (take_drop n l). apply elem_of_app. by left. Qed.

Lemma sort_nil_iff (l : list Item.t) : sort bySimilarityDesc l = [] ↔ l = [].
Proof.
  split; [|by intros ->]. intros H.
  apply Permutation_nil_r. rewrite <- H. symmetry. apply sort_perm.
Qed.

Lemma take3_nil_iff {A} (l : list A) : take 3 l = [] ↔ l = [].
Proof. by destruct l. Qed.

Lemma relatedCardsOf_elem (content : string) card allCards item :
  item ∈ relatedCardsOf content card allCards →
  (1 # 4 < Item.similarity item)%Q
  ∧ ∃ c, c ∈ allCards ∧ Card.id c ≠ Card.id card ∧ item = scoreCard content c.
Proof.
  unfold relatedCardsOf, slice0, aboveThreshold, candidates.
  intros H%elem_of_take_elem_of. rewrite sort_perm in H.
  apply list_elem_of_filter in H as [Hq H]. split; [done|].
  apply list_elem_of_fmap in H as (c & -> & Hc).
  apply list_elem_of_filter in Hc as [Hid Hc]. by exists c.
Qed.

Lemma relatedCardsOf_length (content : string) card allCards :
  (length (relatedCardsOf content card allCards) ≤ 3)%nat.
Proof. unfold relatedCardsOf, slice0. rewrite length_take. lia. Qed.

Lemma relatedPart_cases card allCards :
  (relatedCardsOf (content_of card) card allCards = []
   ∧ relatedPart card allCards = [])
  ∨ (relatedCardsOf (content_of card) card allCards ≠ []
     ∧ relatedPart card allCards =
         [RelatedRec "Suggested Related Cards:"
            (relatedCardsOf (content_of card) card allCards)
            "Content similarity analysis."]).
Proof.
  unfold relatedPart. destruct (relatedCardsOf _ _ _); [by left|by right].
Qed.

(** C1. The related-card step keeps, of the cards other than the target,
    exactly those whose similarity to the target's content is greater than
    0.25; it ranks them in descending order of similarity, cards of equal
    similarity staying in their input order (the ranking is the only list
    with these properties); it keeps the first 3 of the ranking, none of
    which scores less than a card left out; and a recommendation of type
    'related' is in the result if and only if some candidate is above the
    threshold. *)
Theorem related_step (clock : Clock.t) (card : Card.t) (allCards : list Card.t) :
  let content := content_of card in
  let recs := getSmartRecommendations clock card allCards in
  let kept :=
    filter (λ item, (1 # 4 < Item.similarity item)%Q)
      (scoreCard content <$> filter (λ c, Card.id c ≠ Card.id card) allCards) in
  ∃ ranked,
    ranked ≡ₚ kept
    ∧ StronglySorted desc ranked
    ∧ (∀ q, scoring q ranked = scoring q kept)
    ∧ (∀ l, StronglySorted desc l → (∀ q, scoring q l = scoring q kept) →
            l = ranked)
    ∧ relatedCardsOf content card allCards = take 3 ranked
    ∧ (∀ a b, a ∈ take 3 ranked → b ∈ drop 3 ranked → desc a b)
    ∧ of_type "related" recs =
        match kept with
        | [] => []
        | _ => [RelatedRec "Suggested Related Cards:" (take 3 ranked)
                  "Content similarity analysis."]
        end
    ∧ ((∃ r, r ∈ recs ∧ rec_type r = "related") ↔
       (∃ c, c ∈ allCards ∧ Card.id c ≠ Card.id card
             ∧ (1 # 4 < getJaccardSimilarity content
                          (Card.title c +:+ " " +:+ or_empty (Card.description c)))%Q)).
Proof.
  intros content recs kept.
  assert (Hrel : relatedCardsOf content card allCards =
                 take 3 (sort bySimilarityDesc kept)) by done.
  assert (Hof : of_type "related" recs =
      match kept with
      | [] => []
      | _ => [RelatedRec "Suggested Related Cards:"
                (take 3 (sort bySimilarityDesc kept))
                "Content similarity analysis."]
      end).
  { unfold recs. rewrite of_type_related.
    destruct (relatedPart_cases card allCards) as [[Hn Hp]|[Hn Hp]];
      rewrite Hp;
      change (relatedCardsOf (content_of card) card allCards)
        with (take 3 (sort bySimilarityDesc kept)) in *.
    - apply (proj1 (take3_nil_iff _)), (proj1 (sort_nil_iff _)) in Hn.
      by rewrite Hn.
    - destruct kept; [done|done]. }
  exists (sort bySimilarityDesc kept).
  split; [apply sort_perm|]. split; [apply sort_sorted|].
  split; [intros q; apply sort_scoring|]. split.
  { intros l Hl Hq. apply ranked_unique; [done|apply sort_sorted|].
    intros q. by rewrite Hq, sort_scoring. }
  split; [done|]. split.
  { intros a b Ha Hb.
    eapply (StronglySorted_app_1_elem_of desc); [|exact Ha|exact Hb].
    rewrite take_drop. apply sort_sorted. }
  split; [done|]. split.
  - intros (r & Hr & Hty).
    assert (Hin : r ∈ of_type "related" recs) by (by apply list_elem_of_filter).
    rewrite Hof in Hin. destruct kept as [|item kept'] eqn:Ek.
    { by apply elem_of_nil in Hin. }
    assert (Hitem : item ∈ kept) by (rewrite Ek; by left).
    unfold kept in Hitem. apply list_elem_of_filter in Hitem as [Hq Hitem].
    apply list_elem_of_fmap in Hitem as (c & -> & Hc).
    apply list_elem_of_filter in Hc as [Hid Hc]. by exists c.
  - intros (c & Hc & Hid & Hq).
    assert (Hitem : scoreCard content c ∈ kept).
    { unfold kept. apply list_elem_of_filter. split; [done|].
      apply list_elem_of_fmap. exists c. split; [done|].
      by apply list_elem_of_filter. }
    destruct kept as [|item kept'] eqn:Ek; [by apply elem_of_nil in Hitem|].
    exists (RelatedRec "Suggested Related Cards:"
              (take 3 (sort bySimilarityDesc (item :: kept')))
              "Content similarity analysis.").
    split; [|done].
    assert (Hin : RelatedRec "Suggested Related Cards:"
                    (take 3 (sort bySimilarityDesc (item :: kept')))
                    "Content similarity analysis." ∈ of_type "related" recs)
      by (rewrite Hof; by left).
    by apply list_elem_of_filter in Hin as [_ ?].
Qed.

Lemma related_step_witness :
  (∃ r, r ∈ getSmartRecommendations utcNoon loginCard board ∧ rec_type r = "related")
  ∧ (Card.id <$> (Item.card <$> relatedCardsOf (content_of tieTarget) tieTarget tieBoard))
      = ["t4"; "t1"; "t3"].
Proof.
  destruct (related_step utcNoon loginCard board)
    as (ranked & _ & _ & _ & _ & _ & _ & _ & Hiff).
  destruct (related_step utcNoon tieTarget tieBoard)
    as (ranked' & _ & _ & _ & Huniq & Htake & _).
  split.
  - apply Hiff. exists signupCard. split; [|split].
    + unfold board. by repeat constructor.
    + done.
    + by vm_compute.
  - rewrite Htake.
    rewrite <- (Huniq (sort bySimilarityDesc
      (filter (λ item, (1 # 4 < Item.similarity item)%Q)
         (scoreCard (content_of tieTarget) <$>
            filter (λ c, Card.id c ≠ Card.id tieTarget) tieBoard)))).
    + by vm_compute.
    + apply sort_sorted.
    + intros q. apply sort_scoring.
Defined.

(** The ranking of [tieBoard]: the card of score 1 first, then the cards
    of score 1/2 in their input order, cut after the third; the card of
    score exactly 1/4 and the target itself are not ranked. *)
Example related_ranking :
  (λ item, (Card.id (Item.card item), Item.similarity item))
    <$> relatedCardsOf (content_of tieTarget) tieTarget tieBoard
  = [("t4", 4 # 4); ("t1", 2 # 4); ("t3", 2 # 4)]%Q
  ∧ (λ item, (Card.id (Item.card item), Item.similarity item))
      <$> (scoreCard (content_of tieTarget) <$> candidates tieTarget tieBoard)
    = [("t1", 2 # 4); ("t2", 1 # 4); ("t3", 2 # 4); ("t4", 4 # 4);
       ("t5", 1 # 5); ("t6", 2 # 4)]%Q.
Proof. split; by vm_compute. Qed.

(** ** The date rule and the move rule *)

Lemma dayAfter_same_offset (clock : Clock.t) (k : Z) :
  Clock.tzaLocal clock
    (Clock.now clock + Clock.tzaUTC clock (Clock.now clock) + k * msPerDay)%Z
  = Clock.tzaUTC clock (Clock.now clock) →
  Clock.dayAfter clock k = (Clock.today clock + k)%Z.
Proof.
  intros Heq. unfold Clock.dayAfter, Clock.setDatePlus, Clock.today, Clock.day.
  cbv zeta. rewrite Heq.
  replace (Clock.now clock + Clock.tzaUTC clock (Clock.now clock) + k * msPerDay
           - Clock.tzaUTC clock (Clock.now clock))%Z
    with (Clock.now clock + k * msPerDay)%Z by lia.
  by rewrite Z.div_add.
Qed.

(** C2, where the code departs from it. On a host in New York at
    2026-10-31T23:30:00Z, the eve of the end of daylight saving time,
    today is printed as 2026-10-31; for a card without a due date the
    code proposes 2026-11-02 for 'tomorrow', which is today plus 2 days,
    and 2026-11-08 for 'next week', which is today plus 8 days: the day
    is moved in local time and printed in UTC. *)
Theorem date_rule_across_dst :
  isoDate (Clock.today newYorkEve) = "2026-10-31"
  ∧ of_type "date" (getSmartRecommendations newYorkEve tomorrowCard [])
    = [DateRec (Clock.today newYorkEve + 2)%Z "Based on short-term keywords."]
  ∧ isoDate (Clock.today newYorkEve + 2)%Z = "2026-11-02"
  ∧ of_type "date" (getSmartRecommendations newYorkEve nextWeekCard [])
    = [DateRec (Clock.today newYorkEve + 8)%Z "Based on medium-term keywords."]
  ∧ isoDate (Clock.today newYorkEve + 8)%Z = "2026-11-08".
Proof. repeat split; by vm_compute. Qed.

(** X20. For a card without a due date the date rule takes the first
    row that matches the content (the lowercased title, a space, and the
    description): 'today', 'urgent' or 'asap' give the day printed for
    the clock with 'Based on urgent keywords.'; else 'tomorrow' or 'next
    day' give the day printed after the local day is moved by 1, with
    'Based on short-term keywords.'; else 'next week' or '7 days' give the
    day printed after the local day is moved by 7, with 'Based on
    medium-term keywords.'; else no date is proposed.  A card with a due
    date gets no date suggestion, whatever its keywords.  The day printed
    after a move by k is today plus k when the local time has the same
    offset from UTC before and after the move. *)
Theorem date_rule (clock : Clock.t) (card : Card.t) (allCards : list Card.t) :
  let content := content_of card in
  let dates := of_type "date" (getSmartRecommendations clock card allCards) in
  (truthy (Card.dueDate card) = false →
     (urgent content = true →
        dates = [DateRec (Clock.today clock) "Based on urgent keywords."])
     ∧ (urgent content = false → shortTerm content = true →
        dates = [DateRec (Clock.dayAfter clock 1) "Based on short-term keywords."])
     ∧ (urgent content = false → shortTerm content = false →
        mediumTerm content = true →
        dates = [DateRec (Clock.dayAfter clock 7) "Based on medium-term keywords."])
     ∧ (urgent content = false → shortTerm content = false →
        mediumTerm content = false → dates = []))
  ∧ (truthy (Card.dueDate card) = true → dates = [])
  ∧ (∀ k, Clock.tzaLocal clock
            (Clock.now clock + Clock.tzaUTC clock (Clock.now clock) + k * msPerDay)%Z
          = Clock.tzaUTC clock (Clock.now clock) →
          Clock.dayAfter clock k = (Clock.today clock + k)%Z).
Proof.
  intros content dates. unfold dates. rewrite of_type_date.
  unfold datePart. fold content.
  split; [intros ->; repeat split|split; [intros ->; done|]].
  - by intros ->.
  - by intros -> ->.
  - by intros -> -> ->.
  - by intros -> -> ->.
  - apply dayAfter_same_offset.
Qed.

Lemma date_rule_witness :
  of_type "date" (getSmartRecommendations utcNoon loginCard board)
    = [DateRec 20760 "Based on urgent keywords."]
  ∧ of_type "date" (getSmartRecommendations utcNoon callCard board)
    = [DateRec (Clock.today utcNoon + 1)%Z "Based on short-term keywords."]
  ∧ of_type "date" (getSmartRecommendations utcNoon sprintCard board)
    = [DateRec (Clock.today utcNoon + 7)%Z "Based on medium-term keywords."]
  ∧ of_type "date" (getSmartRecommendations utcNoon readmeCard board) = []
  ∧ of_type "date" (getSmartRecommendations utcNoon datedCard board) = [].
Proof.
  destruct (date_rule utcNoon loginCard board) as (H1 & _ & _).
  destruct (date_rule utcNoon callCard board) as (H2 & _ & Hk).
  destruct (date_rule utcNoon sprintCard board) as (H3 & _ & _).
  destruct (date_rule utcNoon readmeCard board) as (H4 & _ & _).
  destruct (date_rule utcNoon datedCard board) as (_ & H5 & _).
  split; [|split; [|split; [|split]]].
  - apply H1; by vm_compute.
  - rewrite <- (Hk 1%Z eq_refl). apply H2; by vm_compute.
  - rewrite <- (Hk 7%Z eq_refl). apply H3; by vm_compute.
  - apply H4; by vm_compute.
  - apply H5; by vm_compute.
Defined.



(** ** The result as a whole *)

Lemma recs_elem clock card allCards r :
  r ∈ getSmartRecommendations clock card allCards →
  (rec_cards r = [] ∧ rec_type r ≠ "related")
  ∨ (r = RelatedRec "Suggested Related Cards:"
           (relatedCardsOf (content_of card) card allCards)
           "Content similarity analysis."
     ∧ relatedCardsOf (content_of card) card allCards ≠ []).
Proof.
  rewrite getSmartRecommendations_parts, !elem_of_app.
  intros [H|[H|H]].
  - left. pose proof (datePart_type clock card) as Ht.
    rewrite Forall_forall in Ht. specialize (Ht r H).
    by destruct r.
  - left. pose proof (movePart_type card) as Ht.
    rewrite Forall_forall in Ht. specialize (Ht r H).
    by destruct r.
  - right. destruct (relatedPart_cases card allCards) as [[_ Hp]|[Hn Hp]];
      rewrite Hp in H.
    + by apply elem_of_nil in H.
    + apply list_elem_of_singleton in H. done.
Qed.

Lemma relatedCardsOf_nonempty_iff (card : Card.t) (allCards : list Card.t) :
  relatedCardsOf (content_of card) card allCards ≠ [] ↔
  ∃ c, c ∈ allCards ∧ Card.id c ≠ Card.id card
       ∧ (1 # 4 < getJaccardSimilarity (content_of card)
                    (Card.title c +:+ " " +:+ or_empty (Card.description c)))%Q.
Proof.
  split.
  - destruct (relatedCardsOf (content_of card) card allCards) as [|item l] eqn:E;
      [done|]. intros _.
    assert (Hin : item ∈ relatedCardsOf (content_of card) card allCards)
      by (rewrite E; by left).
    apply relatedCardsOf_elem in Hin as (Hq & c & Hc & Hid & ->). by exists c.
  - intros (c & Hc & Hid & Hq) Hn. unfold relatedCardsOf, slice0 in Hn.
    apply (proj1 (take3_nil_iff _)), (proj1 (sort_nil_iff _)) in Hn.
    assert (Hin : scoreCard (content_of card) c
                  ∈ aboveThreshold (scoreCard (content_of card)
                                      <$> candidates card allCards)).
    { unfold aboveThreshold, candidates. apply list_elem_of_filter.
      split; [done|]. apply list_elem_of_fmap. exists c. split; [done|].
      by apply list_elem_of_filter. }
    rewrite Hn in Hin. by apply elem_of_nil in Hin.
Qed.

(** C4. The result is the date suggestion, then the move suggestion, then
    the related-cards suggestion, each one listed exactly when its rule
    applies: the date suggestion of the first keyword row that matches,
    for a card without a due date; the move suggestion of the first row
    that matches; and one entry that groups the ranked cards, when a card
    other than the target scores above 0.25.  It is empty when the date
    rule, the move rule and the related-card step all find nothing. *)
Theorem recommendations_order (clock : Clock.t) (card : Card.t)
    (allCards : list Card.t) :
  let content := content_of card in
  let currentList := Card.listTitle card in
  let recs := getSmartRecommendations clock card allCards in
  let dates :=
    if truthy (Card.dueDate card) then []
    else if urgent content
    then [DateRec (Clock.today clock) "Based on urgent keywords."]
    else if shortTerm content
    then [DateRec (Clock.dayAfter clock 1) "Based on short-term keywords."]
    else if mediumTerm content
    then [DateRec (Clock.dayAfter clock 7) "Based on medium-term keywords."]
    else [] in
  let moves :=
    if begun currentList content
    then [MoveRec "Suggest Move: In Progress" "In Progress"
            "Keywords suggest work has begun."]
    else if finished currentList content
    then [MoveRec "Suggest Move: Done" "Done" "Keywords suggest task is complete."]
    else [] in
  let relateds :=
    match relatedCardsOf content card allCards with
    | [] => []
    | cards => [RelatedRec "Suggested Related Cards:" cards
                  "Content similarity analysis."]
    end in
  recs = of_type "date" recs ++ of_type "move" recs ++ of_type "related" recs
  ∧ (length (of_type "date" recs) ≤ 1)%nat
  ∧ (length (of_type "move" recs) ≤ 1)%nat
  ∧ (length (of_type "related" recs) ≤ 1)%nat
  ∧ (truthy (Card.dueDate card) = true
       ∨ (urgent content = false ∧ shortTerm content = false
          ∧ mediumTerm content = false) →
     begun currentList content = false →
     finished currentList content = false →
     (∀ c, c ∈ allCards → Card.id c ≠ Card.id card →
           (getJaccardSimilarity content
              (Card.title c +:+ " " +:+ or_empty (Card.description c)) <= 1 # 4)%Q) →
     recs = [])
  ∧ recs = dates ++ moves ++ relateds
  ∧ of_type "date" recs = dates
  ∧ of_type "move" recs = moves
  ∧ of_type "related" recs = relateds
  ∧ (relateds ≠ [] ↔
     ∃ c, c ∈ allCards ∧ Card.id c ≠ Card.id card
          ∧ (1 # 4 < getJaccardSimilarity content
                       (Card.title c +:+ " " +:+ or_empty (Card.description c)))%Q).
Proof.
  intros content currentList recs dates moves relateds. unfold recs.
  rewrite of_type_date, of_type_move, of_type_related.
  split; [apply getSmartRecommendations_parts|].
  split; [apply datePart_length|]. split; [apply movePart_length|].
  split; [apply relatedPart_length|].
  split.
  { intros Hd Hb Hf Hr. rewrite getSmartRecommendations_parts.
    assert (datePart clock card = []) as ->.
    { unfold datePart. fold content.
      destruct Hd as [->|(-> & -> & ->)]; [done|]. by destruct (truthy _). }
    assert (movePart card = []) as ->.
    { unfold movePart. fold content currentList. by rewrite Hb, Hf. }
    destruct (relatedPart_cases card allCards) as [[_ ->]|[Hn _]]; [done|].
    apply relatedCardsOf_nonempty_iff in Hn as (c & Hc & Hid & Hq).
    specialize (Hr c Hc Hid).
    exfalso. eapply Qlt_irrefl, Qlt_le_trans; [exact Hq|exact Hr]. }
  split; [apply getSmartRecommendations_parts|].
  do 3 (split; [done|]).
  unfold relateds, content. rewrite <- relatedCardsOf_nonempty_iff.
  by destruct (relatedCardsOf (content_of card) card allCards).
Qed.

Lemma recommendations_order_witness :
  getSmartRecommendations utcNoon busyCard board =
    [ DateRec 20760 "Based on urgent keywords.";
      MoveRec "Suggest Move: In Progress" "In Progress"
        "Keywords suggest work has begun.";
      RelatedRec "Suggested Related Cards:"
        (relatedCardsOf (content_of busyCard) busyCard board)
        "Content similarity analysis." ]
  ∧ Card.id <$> (Item.card <$> relatedCardsOf (content_of busyCard) busyCard board)
    = ["c1"; "c2"]
  ∧ getSmartRecommendations utcNoon readmeCard board = []
  ∧ getSmartRecommendations utcNoon datedCard board = [].
Proof.
  destruct (recommendations_order utcNoon busyCard board)
    as (_ & _ & _ & _ & _ & H0 & _).
  destruct (recommendations_order utcNoon readmeCard board) as (_ & _ & _ & _ & H1 & _).
  destruct (recommendations_order utcNoon datedCard board) as (_ & _ & _ & _ & H2 & _).
  split; [|split; [by vm_compute|split]].
  - rewrite H0. clear H0 H1 H2.
    replace (truthy (Card.dueDate busyCard)) with false by done.
    replace (urgent (content_of busyCard)) with true by (by vm_compute).
    replace (begun (Card.listTitle busyCard) (content_of busyCard)) with true
      by (by vm_compute).
    destruct (relatedCardsOf (content_of busyCard) busyCard board) eqn:E;
      [by vm_compute in E|done].
  - apply H1; clear H0 H1 H2.
    + right. by vm_compute.
    + by vm_compute.
    + by vm_compute.
    + intros c Hc Hid. unfold board in Hc.
      repeat (apply elem_of_cons in Hc as [->|Hc]);
        [..|exfalso; by apply elem_of_nil in Hc].
      all: first [by destruct Hid | by vm_compute].
  - apply H2; clear H0 H1 H2.
    + left. by vm_compute.
    + by vm_compute.
    + by vm_compute.
    + intros c Hc Hid. unfold board in Hc.
      repeat (apply elem_of_cons in Hc as [->|Hc]);
        [..|exfalso; by apply elem_of_nil in Hc].
      all: first [by destruct Hid | by vm_compute].
Defined.

(** C9. No ranked card of the related-cards recommendation has the
    identifier of the target card. *)
Theorem related_excludes_target (clock : Clock.t) (card : Card.t)
    (allCards : list Card.t) :
  Forall (λ r, Forall (λ item, Card.id (Item.card item) ≠ Card.id card)
                      (rec_cards r))
         (getSmartRecommendations clock card allCards).
Proof.
  apply Forall_forall. intros r Hr.
  destruct (recs_elem _ _ _ _ Hr) as [[-> _]|[-> _]]; [constructor|].
  simpl. apply Forall_forall. intros item Hitem.
  by apply relatedCardsOf_elem in Hitem as (_ & c & _ & Hid & ->).
Qed.

(** C10. The result holds at most three recommendations: at most one of
    type 'date', at most one of type 'move' and at most one of type
    'related'; and a recommendation of type 'related' carries between 1
    and 3 ranked cards, each with a similarity greater than 0.25. *)
Theorem recommendations_bounds (clock : Clock.t) (card : Card.t)
    (allCards : list Card.t) :
  let recs := getSmartRecommendations clock card allCards in
  (length recs ≤ 3)%nat
  ∧ (length (of_type "date" recs) ≤ 1)%nat
  ∧ (length (of_type "move" recs) ≤ 1)%nat
  ∧ (length (of_type "related" recs) ≤ 1)%nat
  ∧ recs = of_type "date" recs ++ of_type "move" recs ++ of_type "related" recs
  ∧ Forall (λ r, (1 ≤ length (rec_cards r) ≤ 3)%nat
                 ∧ Forall (λ item, (1 # 4 < Item.similarity item)%Q)
                          (rec_cards r))
           (of_type "related" recs).
Proof.
  intros recs. unfold recs.
  rewrite of_type_date, of_type_move, of_type_related.
  pose proof (datePart_length clock card).
  pose proof (movePart_length card).
  pose proof (relatedPart_length card allCards).
  split.
  { rewrite getSmartRecommendations_parts, !length_app. lia. }
  do 3 (split; [done|]).
  split; [apply getSmartRecommendations_parts|].
  destruct (relatedPart_cases card allCards) as [[_ ->]|[Hn ->]];
    [constructor|].
  apply Forall_cons. split; [|constructor]. simpl. split; [split|].
  - destruct (relatedCardsOf _ _ _); [done|]. simpl. lia.
  - apply relatedCardsOf_length.
  - apply Forall_forall. intros item Hitem.
    by apply relatedCardsOf_elem in Hitem as [? _].
Qed.

(** * Further properties of the engine *)

(** ** Letter case *)

Lemma toLowerCase_idemp (s : string) : toLowerCase (toLowerCase s) = toLowerCase s.
Proof. induction s as [|c s IH]; simpl; [done|]. by rewrite lower_char_idemp, IH. Qed.

Lemma toLowerCase_app (s1 s2 : string) :
  toLowerCase (s1 +:+ s2) = toLowerCase s1 +:+ toLowerCase s2.
Proof. induction s1 as [|c s1 IH]; simpl; [done|]. by rewrite IH. Qed.

Lemma normalize_toLowerCase (text : string) :
  normalize (toLowerCase text) = normalize text.
Proof. unfold normalize, tokens. by rewrite toLowerCase_idemp. Qed.

Lemma getJaccardSimilarity_normalize (A A' B B' : string) :
  normalize A = normalize A' → normalize B = normalize B' →
  getJaccardSimilarity A B = getJaccardSimilarity A' B'.
Proof. intros HA HB. rewrite !getJaccardSimilarity_unfold. by rewrite HA, HB. Qed.

(** X1. Lowercasing a text beforehand does not change its similarity
    to any text.  So the score of a sibling, computed from the target's
    lowercased content and the sibling's raw text, is the similarity of
    the two raw texts. *)
Theorem similarity_ignores_case (A B : string) (card otherCard : Card.t) :
  getJaccardSimilarity (toLowerCase A) B = getJaccardSimilarity A B
  ∧ getJaccardSimilarity A (toLowerCase B) = getJaccardSimilarity A B
  ∧ Item.similarity (scoreCard (content_of card) otherCard) =
      getJaccardSimilarity
        (Card.title card +:+ " " +:+ or_empty (Card.description card))
        (Card.title otherCard +:+ " " +:+ or_empty (Card.description otherCard)).
Proof.
  repeat split; try (apply getJaccardSimilarity_normalize;
    by rewrite ?normalize_toLowerCase).
  unfold scoreCard, content_of. simpl.
  apply getJaccardSimilarity_normalize; [apply normalize_toLowerCase|done].
Qed.

(** ** The score in terms of the two token sets *)

Lemma ratio_Qmake (n d : nat) :
  (0 < d)%nat → (ratio n d == Z.of_nat n # Pos.of_nat d)%Q.
Proof.
  intros Hd. unfold ratio, Qdiv, Qeq.
  destruct d as [|d']; [lia|].
  rewrite <- (Nat2Pos.id (S d')) at 1 by lia.
  rewrite positive_nat_Z. simpl. lia.
Qed.

Lemma Pos_of_nat_Z (d : nat) : (0 < d)%nat → Zpos (Pos.of_nat d) = Z.of_nat d.
Proof. intros Hd. rewrite <- positive_nat_Z, Nat2Pos.id; lia. Qed.

Lemma ratio_eq_1 (n d : nat) : (0 < d)%nat → (ratio n d == 1)%Q ↔ n = d.
Proof.
  intros Hd. rewrite (ratio_Qmake n d Hd). unfold Qeq. simpl.
  rewrite (Pos_of_nat_Z d Hd). lia.
Qed.

Lemma ratio_eq_0 (n d : nat) : (0 < d)%nat → (ratio n d == 0)%Q ↔ n = 0%nat.
Proof.
  intros Hd. rewrite (ratio_Qmake n d Hd). unfold Qeq. simpl. lia.
Qed.

Lemma ratio_above_quarter (n d : nat) :
  (0 < d)%nat → (1 # 4 < ratio n d)%Q ↔ (d < 4 * n)%nat.
Proof.
  intros Hd. rewrite (ratio_Qmake n d Hd). unfold Qlt. simpl.
  rewrite (Pos_of_nat_Z d Hd). lia.
Qed.

Lemma union_size_pos (X Y : gset string) : X ≠ ∅ → (0 < size (X ∪ Y))%nat.
Proof.
  intros HX. assert (size X ≠ 0%nat) by (by rewrite size_zero_iff).
  assert (size X ≤ size (X ∪ Y))%nat by (apply subseteq_size; set_solver).
  lia.
Qed.

(** X2. The similarity of two texts is 1 exactly when they have the same
    token set and it is not empty: the order of the words, their
    repetition, their letter case, stop words and short words play no
    part. *)
Theorem similarity_one_iff (A B : string) :
  (getJaccardSimilarity A B == 1)%Q ↔
  normalize A = normalize B ∧ normalize A ≠ ∅.
Proof.
  rewrite getJaccardSimilarity_unfold.
  destruct (decide _) as [H|H].
  - split; [intros Hq; unfold Qeq in Hq; simpl in Hq; lia|].
    intros [Heq Hne]. rewrite <- Heq in H. tauto.
  - assert (HA : normalize A ≠ ∅) by tauto.
    rewrite (ratio_eq_1 _ _ (union_size_pos _ (normalize B) HA)). split.
    + intros Hs. split; [|done].
      assert (normalize A ∩ normalize B = normalize A ∪ normalize B) as Heq.
      { apply set_subseteq_size_eq; [set_solver|lia]. }
      apply set_eq. intros x. split; intros Hx.
      * assert (x ∈ normalize A ∩ normalize B) by (rewrite Heq; set_solver).
        set_solver.
      * assert (x ∈ normalize A ∩ normalize B) by (rewrite Heq; set_solver).
        set_solver.
    + intros [Heq _]. rewrite <- Heq. f_equal. set_solver.
Qed.

Lemma similarity_one_iff_witness :
  (getJaccardSimilarity "Bug: the LOGIN, fix it!" "fix login bug. Login!" == 1)%Q.
Proof.
  apply (proj2 (similarity_one_iff _ _)). split.
  - by_eval.
  - intros H. apply (f_equal size) in H. vm_compute in H. discriminate.
Defined.

(** X3. The similarity of two texts is 0 exactly when they share no
    token; a sibling that shares no token with the target is never
    ranked. *)
Theorem similarity_zero_iff (A B : string) :
  (getJaccardSimilarity A B == 0)%Q ↔ normalize A ∩ normalize B = ∅.
Proof.
  rewrite getJaccardSimilarity_unfold.
  destruct (decide _) as [H|H].
  - split; [|done]. intros _. destruct H as [H|H]; rewrite H; set_solver.
  - assert (HA : normalize A ≠ ∅) by tauto.
    rewrite (ratio_eq_0 _ _ (union_size_pos _ (normalize B) HA)).
    apply size_zero_iff.
Qed.

(** X4. The threshold in numbers of tokens: the similarity of two
    texts is above 0.25 exactly when five times the number of common
    tokens is more than the two numbers of tokens added. *)
Theorem above_threshold_iff (A B : string) :
  (1 # 4 < getJaccardSimilarity A B)%Q ↔
  (size (normalize A) + size (normalize B)
   < 5 * size (normalize A ∩ normalize B))%nat.
Proof.
  assert (Hu : size (normalize A ∪ normalize B) + size (normalize A ∩ normalize B)
               = (size (normalize A) + size (normalize B))%nat).
  { rewrite size_union_alt, size_difference_alt.
    rewrite (comm_L (∩) (normalize B)).
    assert (size (normalize A ∩ normalize B) ≤ size (normalize B))%nat
      by (apply subseteq_size; set_solver).
    lia. }
  rewrite getJaccardSimilarity_unfold.
  destruct (decide _) as [H|H].
  - split; [intros Hq; unfold Qlt in Hq; simpl in Hq; lia|]. intros Hlt. exfalso.
    assert (size (normalize A ∩ normalize B) = 0%nat).
    { apply size_zero_iff. destruct H as [H|H]; rewrite H; set_solver. }
    assert (size (normalize A ∪ normalize B) = 0%nat) by lia.
    destruct H as [H|H]; rewrite H in *; rewrite ?size_empty in *; lia.
  - assert (HA : normalize A ≠ ∅) by tauto.
    rewrite (ratio_above_quarter _ _ (union_size_pos _ (normalize B) HA)). lia.
Qed.

(** ** How many cards are ranked, and which siblings matter *)

Lemma kept_length (content : string) (card : Card.t) (allCards : list Card.t) :
  length (aboveThreshold (scoreCard content <$> candidates card allCards)) =
  length (filter (λ c, Card.id c ≠ Card.id card
                       ∧ (1 # 4 < getJaccardSimilarity content
                            (Card.title c +:+ " " +:+ or_empty (Card.description c)))%Q)
                 allCards).
Proof.
  unfold aboveThreshold, candidates.
  induction allCards as [|c l IH]; [done|].
  rewrite (filter_cons _ c l), (filter_cons (λ c, _ ∧ _) c l).
  destruct (decide (Card.id c ≠ Card.id card)) as [Hid|Hid].
  - rewrite fmap_cons, filter_cons. simpl.
    destruct (decide (1 # 4 < _)%Q) as [Hq|Hq].
    + rewrite decide_True by done. simpl. by rewrite IH.
    + rewrite decide_False by tauto. done.
  - rewrite decide_False by tauto. done.
Qed.

(** X5. The related-cards entry ranks exactly min(3, k) cards, where k is
    the number of cards of [allCards] with another identifier than the
    target and a similarity above 0.25. *)
Theorem related_count (clock : Clock.t) (card : Card.t) (allCards : list Card.t) :
  let content := content_of card in
  let k :=
    length (filter (λ c, Card.id c ≠ Card.id card
                         ∧ (1 # 4 < getJaccardSimilarity content
                              (Card.title c +:+ " " +:+ or_empty (Card.description c)))%Q)
                   allCards) in
  length (relatedCardsOf content card allCards) = (3 `min` k)%nat
  ∧ Forall (λ r, length (rec_cards r) = (3 `min` k)%nat)
           (of_type "related" (getSmartRecommendations clock card allCards)).
Proof.
  intros content k.
  assert (Hlen : length (relatedCardsOf content card allCards) = (3 `min` k)%nat).
  { unfold relatedCardsOf, slice0. rewrite length_take.
    rewrite (Permutation_length (sort_perm bySimilarityDesc _)).
    by rewrite kept_length. }
  split; [done|]. rewrite of_type_related.
  destruct (relatedPart_cases card allCards) as [[_ ->]|[_ ->]];
    [constructor|].
  by repeat constructor.
Qed.

Lemma kept_skip (content : string) (card c : Card.t) (l1 l2 : list Card.t) :
  Card.id c = Card.id card
  ∨ (getJaccardSimilarity content
       (Card.title c +:+ " " +:+ or_empty (Card.description c)) <= 1 # 4)%Q →
  aboveThreshold (scoreCard content <$> candidates card (l1 ++ c :: l2)) =
  aboveThreshold (scoreCard content <$> candidates card (l1 ++ l2)).
Proof.
  intros Hc. unfold aboveThreshold, candidates.
  rewrite !filter_app, !fmap_app, !filter_app. f_equal.
  rewrite (filter_cons _ c l2).
  destruct (decide (Card.id c ≠ Card.id card)) as [Hid|Hid]; [|done].
  rewrite fmap_cons, filter_cons. simpl.
  destruct (decide (1 # 4 < _)%Q) as [Hq|Hq]; [|done].
  destruct Hc as [Hc|Hc]; [done|].
  exfalso. eapply Qlt_irrefl, Qlt_le_trans; [exact Hq|exact Hc].
Qed.

(** X6. A card of [allCards] that is the target itself (same identifier)
    or whose similarity to the target is at most 0.25 plays no part: with
    or without it, wherever it stands, the result is the same. *)
Theorem irrelevant_sibling (clock : Clock.t) (card c : Card.t)
    (l1 l2 : list Card.t) :
  Card.id c = Card.id card
  ∨ (getJaccardSimilarity (content_of card)
       (Card.title c +:+ " " +:+ or_empty (Card.description c)) <= 1 # 4)%Q →
  getSmartRecommendations clock card (l1 ++ c :: l2) =
  getSmartRecommendations clock card (l1 ++ l2).
Proof.
  intros Hc. rewrite !getSmartRecommendations_parts. do 2 f_equal.
  unfold relatedPart, relatedCardsOf. by rewrite (kept_skip _ _ _ _ _ Hc).
Qed.

Lemma irrelevant_sibling_witness :
  getSmartRecommendations utcNoon loginCard board =
  getSmartRecommendations utcNoon loginCard [signupCard; callCard; sprintCard; datedCard]
  ∧ getSmartRecommendations utcNoon loginCard [signupCard; callCard; sprintCard; datedCard] =
    getSmartRecommendations utcNoon loginCard [signupCard; callCard; sprintCard].
Proof.
  split.
  - transitivity (getSmartRecommendations utcNoon loginCard
      ([signupCard] ++ readmeCard :: [callCard; sprintCard; datedCard])).
    + exact (irrelevant_sibling utcNoon loginCard loginCard [] _ (or_introl eq_refl)).
    + apply (irrelevant_sibling utcNoon loginCard readmeCard [signupCard]
               [callCard; sprintCard; datedCard]).
      right. by vm_compute.
  - apply (irrelevant_sibling utcNoon loginCard datedCard
             [signupCard; callCard; sprintCard] []).
    right. by vm_compute.
Defined.

(** X7. The date and the move suggestion depend on the target card only,
    not on [allCards]; the related-cards suggestion depends on the
    identifier, the title and the description of the target only, not on
    the day, the due date or the list. *)
Theorem suggestions_independent (clock clock' : Clock.t) (card card' : Card.t)
    (allCards allCards' : list Card.t) :
  of_type "date" (getSmartRecommendations clock card allCards) =
    of_type "date" (getSmartRecommendations clock card allCards')
  ∧ of_type "move" (getSmartRecommendations clock card allCards) =
      of_type "move" (getSmartRecommendations clock' card allCards')
  ∧ (Card.id card' = Card.id card → Card.title card' = Card.title card →
     or_empty (Card.description card') = or_empty (Card.description card) →
     of_type "related" (getSmartRecommendations clock card allCards) =
       of_type "related" (getSmartRecommendations clock' card' allCards)).
Proof.
  rewrite !of_type_date, !of_type_move, !of_type_related.
  split; [done|]. split; [done|].
  intros Hid Ht Hd. unfold relatedPart, relatedCardsOf, candidates, content_of.
  by rewrite Hid, Ht, Hd.
Qed.

Lemma suggestions_independent_witness :
  of_type "related" (getSmartRecommendations utcNoon loginCard board) =
  of_type "related"
    (getSmartRecommendations newYorkEve
       (Card.mk "c1" "Fix login bug" (Some "urgent, users cannot sign in today")
          (Some "2026-01-01") "Done") board).
Proof.
  by apply (suggestions_independent utcNoon newYorkEve loginCard _ board board).
Defined.

(** X8. A move suggestion never names the list the card is in, whatever
    the lists are called: it names 'In Progress' or 'Done', and the
    title of the card's list is another string. *)
Theorem move_changes_list (clock : Clock.t) (card : Card.t)
    (allCards : list Card.t) (text action rationale : string) :
  MoveRec text action rationale ∈ getSmartRecommendations clock card allCards →
  action ≠ Card.listTitle card ∧ (action = "In Progress" ∨ action = "Done").
Proof.
  intros Hin.
  assert (Hm : MoveRec text action rationale ∈ movePart card).
  { rewrite <- (of_type_move clock card allCards).
    by apply list_elem_of_filter. }
  unfold movePart, begun, finished in Hm. cbv zeta in Hm.
  destruct (includes (Card.listTitle card) "To Do" && _) eqn:E1.
  - apply list_elem_of_singleton in Hm. injection Hm as -> -> ->.
    split; [|by left]. intros Heq. rewrite <- Heq in E1. done.
  - destruct (includes (Card.listTitle card) "In Progress" && _) eqn:E2.
    + apply list_elem_of_singleton in Hm. injection Hm as -> -> ->.
      split; [|by right]. intros Heq. rewrite <- Heq in E2. done.
    + by apply elem_of_nil in Hm.
Qed.

Lemma move_changes_list_witness :
  "In Progress" ≠ Card.listTitle callCard.
Proof.
  apply (move_changes_list utcNoon callCard board "Suggest Move: In Progress"
           "In Progress" "Keywords suggest work has begun.").
  vm_compute. by repeat constructor.
Defined.

(** ** Keywords are substrings of the lowercased content *)

Lemma string_app_assoc (a b c : string) : (a +:+ b) +:+ c = a +:+ (b +:+ c).
Proof.
  induction a as [|x a IH]; [done|].
  change (String x ((a +:+ b) +:+ c) = String x (a +:+ (b +:+ c))).
  by f_equal.
Qed.

Lemma content_of_app (card : Card.t) :
  content_of card =
  toLowerCase (Card.title card) +:+ " "
    +:+ toLowerCase (or_empty (Card.description card)).
Proof. unfold content_of. by rewrite !toLowerCase_app. Qed.

Lemma includes_content (card : Card.t) (before kw after : string) :
  Card.title card = before +:+ kw +:+ after
  ∨ or_empty (Card.description card) = before +:+ kw +:+ after →
  includes (content_of card) (toLowerCase kw) = true.
Proof.
  intros H. apply includes_spec. rewrite content_of_app.
  destruct H as [H|H]; rewrite H, !toLowerCase_app.
  - exists (toLowerCase before),
      (toLowerCase after +:+ " " +:+ toLowerCase (or_empty (Card.description card))).
    by rewrite !string_app_assoc.
  - exists (toLowerCase (Card.title card) +:+ " " +:+ toLowerCase before),
      (toLowerCase after).
    by rewrite !string_app_assoc.
Qed.

(** X9. The keywords are looked for in any letter case and at any place,
    also inside a longer word: a card without a due date whose title or
    description contains 'today', 'urgent' or 'asap', written in any mix
    of cases, gets today as date suggestion. *)
Theorem keyword_any_case (clock : Clock.t) (card : Card.t) (allCards : list Card.t)
    (before kw after : string) :
  truthy (Card.dueDate card) = false →
  Card.title card = before +:+ kw +:+ after
  ∨ or_empty (Card.description card) = before +:+ kw +:+ after →
  toLowerCase kw ∈ ["today"; "urgent"; "asap"] →
  of_type "date" (getSmartRecommendations clock card allCards) =
    [DateRec (Clock.today clock) "Based on urgent keywords."].
Proof.
  intros Hdue Hin Hkw. apply includes_content in Hin.
  rewrite of_type_date. unfold datePart. cbv zeta. rewrite Hdue.
  replace (urgent (content_of card)) with true; [done|].
  unfold urgent.
  repeat (apply elem_of_cons in Hkw as [Hkw|Hkw];
          [rewrite Hkw in Hin; rewrite Hin; by rewrite ?orb_true_r|]).
  by apply elem_of_nil in Hkw.
Qed.

Lemma keyword_any_case_witness :
  of_type "date"
    (getSmartRecommendations utcNoon
       (Card.mk "k1" "Pick up the AsApparel order" None None "Done") board) =
    [DateRec 20760 "Based on urgent keywords."].
Proof.
  apply (keyword_any_case utcNoon _ board "Pick up the " "AsAp" "parel order").
  - done.
  - by left.
  - by_eval.
Defined.

(** X10. The content is the title, one space and the description: a
    keyword of two words is also found when its first word ends the title
    and its second word starts the description.  With 'next week' or
    '7 days' met that way, and no keyword of the first two rows, a card
    without a due date gets the date suggestion of the third row: the day
    printed after the local day is moved by 7. *)
Theorem keyword_across_fields (clock : Clock.t) (card : Card.t)
    (allCards : list Card.t) (t d k1 k2 : string) :
  Card.title card = t +:+ k1 →
  Card.description card = Some (k2 +:+ d) →
  includes (content_of card) (toLowerCase (k1 +:+ " " +:+ k2)) = true
  ∧ (toLowerCase (k1 +:+ " " +:+ k2) ∈ ["next week"; "7 days"] →
     truthy (Card.dueDate card) = false →
     urgent (content_of card) = false → shortTerm (content_of card) = false →
     of_type "date" (getSmartRecommendations clock card allCards) =
       [DateRec (Clock.dayAfter clock 7) "Based on medium-term keywords."]).
Proof.
  intros Ht Hd.
  assert (Hinc : includes (content_of card) (toLowerCase (k1 +:+ " " +:+ k2)) = true).
  { apply includes_spec. rewrite content_of_app, Ht, Hd. simpl.
    rewrite !toLowerCase_app. simpl.
    exists (toLowerCase t), (toLowerCase d). by rewrite !string_app_assoc. }
  split; [done|]. intros Hkw Hdue Hu Hs.
  rewrite of_type_date. unfold datePart. cbv zeta.
  rewrite Hdue, Hu, Hs.
  replace (mediumTerm (content_of card)) with true; [done|].
  unfold mediumTerm.
  repeat (apply elem_of_cons in Hkw as [Hkw|Hkw];
          [rewrite Hkw in Hinc; rewrite Hinc; by rewrite ?orb_true_r|]).
  by apply elem_of_nil in Hkw.
Qed.

Lemma keyword_across_fields_witness :
  of_type "date"
    (getSmartRecommendations utcNoon
       (Card.mk "k2" "Release notes: NEXT" (Some "Week 12 is the target")
          None "To Do") board) =
    [DateRec (Clock.dayAfter utcNoon 7) "Based on medium-term keywords."]
  ∧ Clock.dayAfter utcNoon 7 = 20767%Z.
Proof.
  destruct (keyword_across_fields utcNoon
              (Card.mk "k2" "Release notes: NEXT" (Some "Week 12 is the target")
                 None "To Do")
              board "Release notes: " " 12 is the target" "NEXT" "Week"
              eq_refl eq_refl) as [_ H].
  split; [|by vm_compute].
  apply H; [by_eval|done|by vm_compute|by vm_compute].
Defined.

(** * The callers *)

(** ** The columns of the board *)

Lemma filter_or_disjoint {A} (P Q : A → Prop)
    `{∀ x, Decision (P x)} `{∀ x, Decision (Q x)} (l : list A) :
  (∀ x, P x → Q x → False) →
  filter (λ x, P x ∨ Q x) l ≡ₚ filter P l ++ filter Q l.
Proof.
  intros Hdisj. induction l as [|x l IH]; [done|].
  rewrite !filter_cons.
  destruct (decide (P x)) as [HP|HP]; destruct (decide (Q x)) as [HQ|HQ].
  - by destruct (Hdisj x).
  - rewrite decide_True by tauto. simpl. by rewrite IH.
  - rewrite decide_True by tauto. rewrite IH. apply Permutation_middle.
  - rewrite decide_False by tauto. done.
Qed.

(** X11. With lists of distinct identifiers, the columns share out the
    cards whose [listId] is the identifier of a list: each of these cards
    is drawn once, in the column of its list; a card whose [listId] is no
    list's identifier is drawn nowhere. *)
Theorem columns_partition (lists : list BoardList.t) (cards : list CardDoc.t) :
  NoDup (BoardList.id <$> lists) →
  concat (snd <$> columns lists cards) ≡ₚ
    filter (λ c, CardDoc.listId c ∈ BoardList.id <$> lists) cards
  ∧ (∀ c l, c ∈ column l cards ↔ c ∈ cards ∧ CardDoc.listId c = BoardList.id l).
Proof.
  intros Hnd. split.
  - unfold columns. induction lists as [|l lists IH].
    + symmetry. apply Permutation_nil_r.
      induction cards as [|c cards IHc]; [done|].
      rewrite filter_cons_False; [done|]. by intros ?%elem_of_nil.
    + rewrite !fmap_cons in *. apply NoDup_cons in Hnd as [Hl Hnd].
      cbn [concat snd]. rewrite (IH Hnd).
      rewrite (list_filter_iff
        (λ c, CardDoc.listId c ∈ BoardList.id l :: (BoardList.id <$> lists))
        (λ c, CardDoc.listId c = BoardList.id l
              ∨ CardDoc.listId c ∈ BoardList.id <$> lists))
        by (intros c; apply elem_of_cons).
      symmetry. unfold column. apply filter_or_disjoint. intros c Heq Hin.
      apply Hl. by rewrite <- Heq.
  - intros c l. unfold column. rewrite list_elem_of_filter. tauto.
Qed.

Lemma columns_partition_witness :
  (length <$> (snd <$> columns defaultLists
     [ CardDoc.mk "1" "a" None None "todo" "b";
       CardDoc.mk "2" "b" None None "done" "b";
       CardDoc.mk "3" "c" None None "todo" "b";
       CardDoc.mk "4" "d" None None "archive" "b" ])) = [2; 0; 1]%nat
  ∧ concat (snd <$> columns defaultLists
      [ CardDoc.mk "1" "a" None None "todo" "b";
        CardDoc.mk "2" "b" None None "done" "b";
        CardDoc.mk "3" "c" None None "todo" "b";
        CardDoc.mk "4" "d" None None "archive" "b" ]) ≡ₚ
    [ CardDoc.mk "1" "a" None None "todo" "b";
      CardDoc.mk "2" "b" None None "done" "b";
      CardDoc.mk "3" "c" None None "todo" "b" ].
Proof.
  split; [by vm_compute|].
  destruct (columns_partition defaultLists
     [ CardDoc.mk "1" "a" None None "todo" "b";
       CardDoc.mk "2" "b" None None "done" "b";
       CardDoc.mk "3" "c" None None "todo" "b";
       CardDoc.mk "4" "d" None None "archive" "b" ]) as [H _]; [by_eval|].
  rewrite H. by vm_compute.
Defined.

(** ** Saving and applying in the modal *)

Lemma candidates_asCard_update (card : Card.t) (i : string) (u : Updates.t)
    (docs : list CardDoc.t) :
  Card.id card = i →
  candidates card
    (asCard <$> ((λ d, if decide (CardDoc.id d = i) then CardDoc.update u d else d)
                   <$> docs)) =
  candidates card (asCard <$> docs).
Proof.
  intros Hi. unfold candidates. induction docs as [|d docs IH]; [done|].
  rewrite !fmap_cons, !filter_cons, IH.
  destruct (decide (CardDoc.id d = i)) as [Hd|Hd]; [|done].
  rewrite !decide_False; [done|..]; simpl; rewrite Hi; tauto.
Qed.

Lemma truthy_or_empty (x : option string) : truthy (Some (or_empty x)) = truthy x.
Proof. destruct x as [s|]; [done|]. by vm_compute. Qed.

(** X12. Saving the modal without an edit writes the title, the
    description ([''] when absent) and the due date ([''] when absent);
    on the board after this update, the card opened again from the same
    column gets the same recommendations as before. *)
Theorem save_unedited (clock : Clock.t) (l : BoardList.t) (doc : CardDoc.t)
    (docs : list CardDoc.t) :
  let card := handleCardClick l doc in
  let u := Updates.mk (Some (CardDoc.title doc))
             (Some (or_empty (CardDoc.description doc)))
             (Some (or_empty (CardDoc.dueDate doc))) None in
  let docs' :=
    (λ d, if decide (CardDoc.id d = CardDoc.id doc) then CardDoc.update u d else d)
      <$> docs in
  handleSave (Modal.init card) card =
    (Modal.init card, [UpdateCard (CardDoc.id doc) u; OnClose])
  ∧ getSmartRecommendations clock (handleCardClick l (CardDoc.update u doc))
      (asCard <$> docs') =
    getSmartRecommendations clock card (asCard <$> docs).
Proof.
  intros card u docs'. split; [done|].
  rewrite !getSmartRecommendations_parts.
  assert (Hc : content_of (handleCardClick l (CardDoc.update u doc)) = content_of card).
  { unfold content_of. simpl. by destruct (CardDoc.description doc). }
  assert (Hd : datePart clock (handleCardClick l (CardDoc.update u doc)) =
               datePart clock card).
  { unfold datePart. cbv zeta. rewrite Hc.
    change (Card.dueDate (handleCardClick l (CardDoc.update u doc)))
      with (Some (or_empty (CardDoc.dueDate doc))).
    by rewrite truthy_or_empty. }
  assert (Hm : movePart (handleCardClick l (CardDoc.update u doc)) = movePart card).
  { unfold movePart. cbv zeta. by rewrite Hc. }
  assert (Hr : relatedPart (handleCardClick l (CardDoc.update u doc))
                 (asCard <$> docs') = relatedPart card (asCard <$> docs)).
  { unfold relatedPart, relatedCardsOf. rewrite Hc. unfold docs'.
    by rewrite (candidates_asCard_update _ (CardDoc.id doc) u docs). }
  by rewrite Hd, Hm, Hr.
Qed.

Lemma move_elem (clock : Clock.t) (card : Card.t) (allCards : list Card.t)
    (text action rationale : string) :
  MoveRec text action rationale ∈ getSmartRecommendations clock card allCards →
  (action = "In Progress" ∧ includes (Card.listTitle card) "To Do" = true)
  ∨ (action = "Done" ∧ includes (Card.listTitle card) "In Progress" = true).
Proof.
  intros Hin.
  assert (Hm : MoveRec text action rationale ∈ movePart card).
  { rewrite <- (of_type_move clock card allCards).
    by apply list_elem_of_filter. }
  unfold movePart, begun, finished in Hm. cbv zeta in Hm.
  destruct (includes (Card.listTitle card) "To Do") eqn:E1;
    destruct (includes (Card.listTitle card) "In Progress") eqn:E2;
    simpl in Hm;
    repeat match type of Hm with
    | context [if ?b then _ else _] => destruct b
    end;
    try (by apply elem_of_nil in Hm);
    apply list_elem_of_singleton in Hm; injection Hm as -> -> ->; tauto.
Qed.

(** X13. On the default board a move suggestion always names the next
    column: for a card opened from one of the three default lists, the
    list with the suggested title exists and comes right after the
    card's list, and applying the suggestion makes exactly one call,
    which sets the card's [listId] to that list.  So a card is moved at
    most twice by suggestions, from 'To Do' to 'In Progress' to 'Done'. *)
Theorem move_to_next_column (clock : Clock.t) (l : BoardList.t) (doc : CardDoc.t)
    (allCards : list Card.t) (st : Modal.state) (text action rationale : string) :
  l ∈ defaultLists →
  MoveRec text action rationale
    ∈ getSmartRecommendations clock (handleCardClick l doc) allCards →
  ∃ l', l' ∈ defaultLists
        ∧ BoardList.title l' = action
        ∧ BoardList.order l' = S (BoardList.order l)
        ∧ handleApplyRec defaultLists st (handleCardClick l doc)
            (MoveRec text action rationale) =
          (st, [UpdateCard (CardDoc.id doc)
                  (Updates.mk None None None (Some (BoardList.id l')))]).
Proof.
  intros Hl Hin. apply move_elem in Hin. simpl in Hin.
  unfold defaultLists in Hl.
  repeat (apply elem_of_cons in Hl as [->|Hl]);
    [..|by apply elem_of_nil in Hl];
    destruct Hin as [[-> Hinc]|[-> Hinc]]; try (by vm_compute in Hinc).
  - exists (BoardList.mk "in_progress" "In Progress" 2).
    split; [unfold defaultLists; by repeat constructor|done].
  - exists (BoardList.mk "done" "Done" 3).
    split; [unfold defaultLists; by repeat constructor|done].
Qed.

Lemma move_to_next_column_witness :
  ∃ l', BoardList.id l' = "done"
        ∧ handleApplyRec defaultLists (Modal.init sprintCard) sprintCard
            (MoveRec "Suggest Move: Done" "Done"
               "Keywords suggest task is complete.") =
          (Modal.init sprintCard,
           [UpdateCard "c5" (Updates.mk None None None (Some (BoardList.id l')))]).
Proof.
  destruct (move_to_next_column utcNoon (BoardList.mk "in_progress" "In Progress" 2)
              (CardDoc.mk "c5" "Plan sprint"
                 (Some "let's do this next week, all done") None "in_progress" "b")
              board (Modal.init sprintCard) "Suggest Move: Done" "Done"
              "Keywords suggest task is complete.") as (l' & Hl' & Ht & Ho & Hcall).
  - unfold defaultLists. by repeat constructor.
  - vm_compute. by repeat constructor.
  - exists l'. split; [|exact Hcall].
    unfold defaultLists in Hl'.
    repeat (apply elem_of_cons in Hl' as [->|Hl']); try done.
    by apply elem_of_nil in Hl'.
Defined.

Lemma app_nonempty (a b : string) : a ≠ "" → a +:+ b ≠ "".
Proof. by destruct a. Qed.

Lemma isoDate_nonempty (d : Date) : isoDate d ≠ "".
Proof.
  unfold isoDate. destruct (civil d) as [[y m] day].
  apply app_nonempty.
  destruct (_ && _); [|destruct (_ <? _)%Z]; done.
Qed.

(** X14. Applying a date suggestion stores the proposed day as the due
    date, a text that is not empty; on the board after this update the
    card opened again gets no date suggestion any more, on any day, and
    its move and related-cards suggestions are the ones it had. *)
Theorem date_applied (clock clock' : Clock.t) (lists : list BoardList.t)
    (l : BoardList.t) (doc : CardDoc.t) (docs : list CardDoc.t)
    (st : Modal.state) (action : Date) (rationale : string) :
  let card := handleCardClick l doc in
  let u := Updates.mk None None (Some (isoDate action)) None in
  let docs' :=
    (λ d, if decide (CardDoc.id d = CardDoc.id doc) then CardDoc.update u d else d)
      <$> docs in
  let card' := handleCardClick l (CardDoc.update u doc) in
  snd (handleApplyRec lists st card (DateRec action rationale)) =
    [UpdateCard (CardDoc.id doc) u]
  ∧ Modal.dueDate (fst (handleApplyRec lists st card (DateRec action rationale)))
      = isoDate action
  ∧ isoDate action ≠ ""
  ∧ of_type "date" (getSmartRecommendations clock' card' (asCard <$> docs')) = []
  ∧ of_type "move" (getSmartRecommendations clock' card' (asCard <$> docs')) =
      of_type "move" (getSmartRecommendations clock card (asCard <$> docs))
  ∧ of_type "related" (getSmartRecommendations clock' card' (asCard <$> docs')) =
      of_type "related" (getSmartRecommendations clock card (asCard <$> docs)).
Proof.
  intros card u docs' card'.
  pose proof (isoDate_nonempty action) as Hne.
  split; [done|]. split; [done|]. split; [done|].
  rewrite !of_type_date, !of_type_move, !of_type_related.
  split; [|split; [done|]].
  - unfold datePart. cbv zeta.
    change (Card.dueDate card') with (Some (isoDate action)).
    unfold truthy. by rewrite bool_decide_eq_false_2.
  - unfold relatedPart, relatedCardsOf.
    change (content_of card') with (content_of card). unfold docs'.
    by rewrite (candidates_asCard_update _ (CardDoc.id doc) u docs).
Qed.

(** ** Boards: who sees them *)

(** X15. [createNewBoard] adds a board only with a store, a signed-in
    user and a name that is not empty; the board it adds has no member,
    and the list of boards shows it to its creator and to no other
    user. *)
Theorem new_board_visibility (db : bool) (userId other : option string)
    (name docId : string) :
  (createNewBoard db userId name docId = None ↔
   db = false ∨ userId = None ∨ userId = Some "" ∨ name = "")
  ∧ (∀ b, createNewBoard db userId name docId = Some b →
       Board.id b = docId ∧ Board.members b = Some []
       ∧ visibleTo userId b
       ∧ (visibleTo other b → other = userId)
       ∧ ∀ boards, userBoards userId (boards ++ [b]) = userBoards userId boards ++ [b]).
Proof.
  unfold createNewBoard. split.
  - destruct db; simpl; [|split; [by left|done]].
    destruct userId as [u|]; simpl; [|split; [intros _; right; by left|done]].
    destruct (decide (u = "")) as [->|Hu]; simpl.
    { split; [intros _; right; right; by left|done]. }
    rewrite (bool_decide_eq_false_2 _ Hu). simpl.
    destruct (decide (name = "")) as [->|Hn]; simpl.
    { split; [intros _; by repeat right|done]. }
    rewrite (bool_decide_eq_false_2 _ Hn).
    split; [done|]. intros [?|[?|[[= ?]|?]]]; done.
  - intros b Hb.
    destruct db; simpl in Hb; [|done].
    destruct userId as [u|]; simpl in Hb; [|done].
    destruct (bool_decide (u = "")); simpl in Hb; [done|].
    destruct (bool_decide (name = "")); [done|].
    injection Hb as <-. simpl.
    split; [done|]. split; [done|]. split; [by left|]. split.
    + destruct other as [o|]; simpl; [|done].
      intros [->|Hin]; [done|]. by apply elem_of_nil in Hin.
    + intros boards. unfold userBoards. rewrite filter_app. f_equal.
      rewrite filter_cons_True; [done|]. simpl. by left.
Qed.

Lemma new_board_visibility_witness :
  ∃ b, createNewBoard true (Some "uid-1") "Roadmap" "board-9" = Some b
       ∧ visibleTo (Some "uid-1") b
       ∧ userBoards (Some "uid-2") [b] = [].
Proof.
  destruct (new_board_visibility true (Some "uid-1") (Some "uid-2")
              "Roadmap" "board-9") as [_ H].
  eexists. split; [reflexivity|].
  destruct (H _ eq_refl) as (_ & _ & Hv & Ho & _).
  split; [exact Hv|].
  unfold userBoards. rewrite filter_cons_False; [done|].
  intros Hv2. by apply Ho in Hv2.
Defined.

(** X16. [handleInvite] does nothing when the typed address is empty or
    is the owner's; otherwise it clears the field and calls
    [updateBoardMembers] once.  With a store, the board that call writes
    is shown to the users it was shown to before and to the user whose
    identifier is the typed text, and to nobody else; the owner's address
    stays out of the members when it was out. *)
Theorem invite_visibility (st : Modal.state) (board : Board.t)
    (u : option string) :
  let e := Modal.newMemberEmail st in
  (e = "" ∨ e = Board.ownerEmail board →
   handleInvite st (Board.ownerEmail board) = (st, []))
  ∧ (e ≠ "" → e ≠ Board.ownerEmail board →
     handleInvite st (Board.ownerEmail board) =
       (Modal.mk (Modal.title st) (Modal.description st) (Modal.dueDate st) "",
        [UpdateBoardMembers e])
     ∧ ∃ board', updateBoardMembers true board e = Some board'
         ∧ (visibleTo u board' ↔ visibleTo u board ∨ u = Some e)
         ∧ (Board.ownerEmail board ∉ default [] (Board.members board) →
            Board.ownerEmail board' ∉ default [] (Board.members board'))).
Proof.
  intros e. subst e. unfold handleInvite. split.
  - intros [He|He]; rewrite He.
    + by rewrite bool_decide_eq_true_2.
    + rewrite (bool_decide_eq_true_2 (_ = Board.ownerEmail board)) by done.
      by rewrite andb_false_r.
  - intros He Ho.
    rewrite (bool_decide_eq_false_2 _ He), (bool_decide_eq_false_2 _ Ho).
    split; [done|]. eexists. split; [reflexivity|]. split.
    + destruct u as [x|]; simpl; [|split; [done|by intros [[]|?]]].
      unfold invitedMembers. rewrite elem_of_app, list_elem_of_singleton.
      split; [intros [?|[?|Hx]]; [tauto..|right; by rewrite Hx]|].
      intros [[?|?]|[= Hx]]; tauto.
    + simpl. unfold invitedMembers. intros Hout.
      rewrite elem_of_app, list_elem_of_singleton. intros [?|?]; [done|].
      by apply Ho.
Qed.

Lemma invite_visibility_witness :
  visibleTo (Some "uid-2")
    (invitedBoard (Board.mk "board-9" "Roadmap" "uid-1" "uid-1" None) "uid-2")
  ∧ handleInvite (Modal.mk "t" "d" "" "uid-1") "uid-1" = (Modal.mk "t" "d" "" "uid-1", []).
Proof.
  destruct (invite_visibility (Modal.mk "t" "d" "" "uid-2")
              (Board.mk "board-9" "Roadmap" "uid-1" "uid-1" None) (Some "uid-2"))
    as [_ H].
  destruct (invite_visibility (Modal.mk "t" "d" "" "uid-1")
              (Board.mk "board-9" "Roadmap" "uid-1" "uid-1" None) None)
    as [H0 _].
  split.
  - destruct H as (_ & board' & [= <-] & Hv & _); [done..|]. apply Hv. by right.
  - apply H0. by right.
Defined.

(** ** Fresh cards *)

Lemma relatedPart_nonempty (card c : Card.t) (allCards : list Card.t) :
  c ∈ allCards → Card.id c ≠ Card.id card →
  (1 # 4 < getJaccardSimilarity (content_of card)
             (Card.title c +:+ " " +:+ or_empty (Card.description c)))%Q →
  relatedPart card allCards ≠ [].
Proof.
  intros Hc Hid Hq.
  destruct (relatedPart_cases card allCards) as [[Hn _]|[_ ->]]; [|done].
  exfalso. unfold relatedCardsOf, slice0 in Hn.
  apply (proj1 (take3_nil_iff _)), (proj1 (sort_nil_iff _)) in Hn.
  assert (Hin : scoreCard (content_of card) c
                ∈ aboveThreshold (scoreCard (content_of card) <$> candidates card allCards)).
  { unfold aboveThreshold, candidates. apply list_elem_of_filter. split; [done|].
    apply list_elem_of_fmap. exists c. split; [done|].
    by apply list_elem_of_filter. }
  rewrite Hn in Hin. by apply elem_of_nil in Hin.
Qed.

(** X17. A card as [addCard] makes it ('New Task', 'Add details
    here...', no due date) gets no date and no move suggestion, in any
    list and on any day; and as soon as [allCards] holds another card
    that [addCard] made, that card scores 1 and a related-cards
    suggestion is shown. *)
Theorem fresh_cards (clock : Clock.t) (l : BoardList.t) (userId userId' : option string)
    (boardId listId docId boardId' listId' docId' : string)
    (doc doc' : CardDoc.t) (allCards : list Card.t) :
  addCard true userId boardId listId docId = Some doc →
  let recs := getSmartRecommendations clock (handleCardClick l doc) allCards in
  of_type "date" recs = [] ∧ of_type "move" recs = []
  ∧ (addCard true userId' boardId' listId' docId' = Some doc' →
     docId' ≠ docId → asCard doc' ∈ allCards →
     (Item.similarity (scoreCard (content_of (handleCardClick l doc)) (asCard doc'))
      == 1)%Q
     ∧ of_type "related" recs ≠ []).
Proof.
  unfold addCard. intros Hdoc.
  destruct (negb true || negb (truthy userId)); [done|]. injection Hdoc as <-.
  cbv zeta.
  rewrite of_type_date, of_type_move, of_type_related.
  split; [done|]. split.
  { unfold movePart, begun, finished. cbv zeta.
    change (content_of _) with "new task add details here...".
    replace (includes "new task add details here..." "started"
             || includes "new task add details here..." "working on")
      with false by (by vm_compute).
    replace (includes "new task add details here..." "done"
             || includes "new task add details here..." "complete")
      with false by (by vm_compute).
    by rewrite !andb_false_r. }
  intros Hdoc' Hid Hin.
  destruct (negb true || negb (truthy userId')); [done|]. injection Hdoc' as <-.
  split; [by vm_compute|].
  eapply relatedPart_nonempty; [exact Hin|by simpl|by vm_compute].
Qed.

Lemma fresh_cards_witness :
  of_type "related"
    (getSmartRecommendations utcNoon
       (handleCardClick (BoardList.mk "todo" "To Do" 1)
          (CardDoc.mk "n1" "New Task" (Some "Add details here...") None "todo" "b"))
       [asCard (CardDoc.mk "n2" "New Task" (Some "Add details here...") None
                  "done" "b")]) ≠ [].
Proof.
  destruct (fresh_cards utcNoon (BoardList.mk "todo" "To Do" 1) (Some "u") (Some "v")
              "b" "todo" "n1" "b" "done" "n2"
              (CardDoc.mk "n1" "New Task" (Some "Add details here...") None "todo" "b")
              (CardDoc.mk "n2" "New Task" (Some "Add details here...") None "done" "b")
              [asCard (CardDoc.mk "n2" "New Task" (Some "Add details here...") None
                         "done" "b")] eq_refl) as (_ & _ & H).
  apply H; [done|done|]. by left.
Defined.

(** ** The order of the cards *)

Lemma sort_scores_perm (l1 l2 : list Item.t) :
  l1 ≡ₚ l2 →
  (λ item, Qred (Item.similarity item)) <$> sort bySimilarityDesc l1 =
  (λ item, Qred (Item.similarity item)) <$> sort bySimilarityDesc l2.
Proof.
  intros Hp.
  assert (Hs : ∀ l, StronglySorted (λ a b : Q, (b <= a)%Q)
                 ((λ item, Qred (Item.similarity item)) <$> sort bySimilarityDesc l)).
  { intros l. eapply StronglySorted_fmap with (R1 := desc); [|apply sort_sorted].
    intros a b Hab. unfold desc in Hab. by rewrite !Qred_correct. }
  apply (StronglySorted_unique_strong (λ a b : Q, (b <= a)%Q)); [|apply Hs..|].
  - intros x1 x2 (a & -> & _)%list_elem_of_fmap (b & -> & _)%list_elem_of_fmap H1 H2.
    apply Qred_complete. rewrite !Qred_correct in H1, H2. by apply Qle_antisym.
  - by rewrite !sort_perm, Hp.
Qed.

(** X18. The scores shown do not depend on the order in which the
    cards arrive: for two orders of the same cards, the ranked
    similarities (as reduced fractions) are the same, and so are the
    types of the recommendations; only which of several cards of equal
    score is ranked first can differ. *)
Theorem order_independent (clock : Clock.t) (card : Card.t)
    (allCards allCards' : list Card.t) :
  allCards ≡ₚ allCards' →
  (λ item, Qred (Item.similarity item))
    <$> relatedCardsOf (content_of card) card allCards =
  (λ item, Qred (Item.similarity item))
    <$> relatedCardsOf (content_of card) card allCards'
  ∧ rec_type <$> getSmartRecommendations clock card allCards =
    rec_type <$> getSmartRecommendations clock card allCards'.
Proof.
  intros Hp.
  assert (Hs : (λ item, Qred (Item.similarity item))
                 <$> relatedCardsOf (content_of card) card allCards =
               (λ item, Qred (Item.similarity item))
                 <$> relatedCardsOf (content_of card) card allCards').
  { unfold relatedCardsOf, slice0. rewrite !fmap_take. f_equal.
    apply sort_scores_perm. unfold aboveThreshold, candidates. by rewrite Hp. }
  split; [done|].
  rewrite !getSmartRecommendations_parts, !fmap_app. do 2 f_equal.
  apply (f_equal length) in Hs. rewrite !length_fmap in Hs.
  unfold relatedPart.
  destruct (relatedCardsOf _ _ allCards), (relatedCardsOf _ _ allCards'); done.
Qed.

Lemma order_independent_witness :
  (λ item, Qred (Item.similarity item))
    <$> relatedCardsOf (content_of tieTarget) tieTarget (reverse tieBoard) =
  [1; 1 # 2; 1 # 2]%Q
  ∧ Card.id <$> (Item.card <$>
      relatedCardsOf (content_of tieTarget) tieTarget (reverse tieBoard)) =
    ["t4"; "t6"; "t3"].
Proof.
  split; [|by vm_compute].
  destruct (order_independent utcNoon tieTarget (reverse tieBoard) tieBoard) as [H _].
  - by rewrite reverse_Permutation.
  - rewrite H. by vm_compute.
Defined.

(** ** No card is ranked twice *)

Lemma kept_ids_sublist (content : string) (card : Card.t) (allCards : list Card.t) :
  (Card.id <$> (Item.card <$>
     aboveThreshold (scoreCard content <$> candidates card allCards)))
  `sublist_of` (Card.id <$> allCards).
Proof.
  unfold aboveThreshold, candidates.
  induction allCards as [|c l IH]; [done|].
  rewrite (filter_cons _ c l), (fmap_cons Card.id c l).
  destruct (decide (Card.id c ≠ Card.id card)); [|by apply sublist_cons].
  rewrite fmap_cons, filter_cons.
  destruct (decide _); [|by apply sublist_cons].
  rewrite !fmap_cons. simpl. by apply sublist_skip.
Qed.

(** X19. When the cards of [allCards] have distinct identifiers, so do
    the ranked cards: no card is listed twice in a related-cards
    suggestion. *)
Theorem ranked_distinct (clock : Clock.t) (card : Card.t) (allCards : list Card.t) :
  NoDup (Card.id <$> allCards) →
  Forall (λ r, NoDup (Card.id <$> (Item.card <$> rec_cards r)))
         (getSmartRecommendations clock card allCards).
Proof.
  intros Hnd. apply Forall_forall. intros r Hr.
  destruct (recs_elem _ _ _ _ Hr) as [[-> _]|[-> _]]; [constructor|].
  simpl. unfold relatedCardsOf, slice0.
  set (kept := aboveThreshold (scoreCard (content_of card) <$> candidates card allCards)).
  assert (Hk : NoDup (Card.id <$> (Item.card <$> kept))).
  { eapply sublist_NoDup; [exact Hnd|]. apply kept_ids_sublist. }
  assert (Hs : NoDup (Card.id <$> (Item.card <$> sort bySimilarityDesc kept))).
  { by rewrite (sort_perm bySimilarityDesc kept). }
  eapply sublist_NoDup; [exact Hs|].
  apply fmap_sublist, fmap_sublist, sublist_take.
Qed.

Lemma ranked_distinct_witness :
  Forall (λ r, NoDup (Card.id <$> (Item.card <$> rec_cards r)))
         (getSmartRecommendations utcNoon tieTarget tieBoard).
Proof. apply (ranked_distinct utcNoon tieTarget tieBoard). by_eval. Defined.
